(** * Telemetry event dispatcher (pkg/telemetry/telemetryserviceevents.go)

    A shallow embedding of the lifecycle entry points of [telemetryService]
    and of the worker registry they maintain.  The Go code is imperative: it
    mutates the [workers] map under a lock, allocates [StatsWorker] objects
    that are shared by pointer, reads the wall clock, draws random ids and
    calls three sinks.  All of this is written here in a state-and-failure
    monad [M] over a [World]; every call into a sink, the registry or a
    worker is also recorded, in program order, in the effect log that a
    computation answers. *)

From stdpp Require Import base option list gmap strings pretty.
From Stdlib Require Import ZArith Lia.

Local Open Scope Z_scope.

(** ** Protocol messages

    The protobuf messages of [github.com/livekit/protocol/livekit], with the
    fields that the dispatcher reads or writes.  A pointer-typed field that
    may be left unset is an [option]. *)

Inductive TrackType := AUDIO | VIDEO | DATA.

Definition TrackType_String (t : TrackType) : string :=
  match t with AUDIO => "AUDIO" | VIDEO => "VIDEO" | DATA => "DATA" end.

Inductive ClientInfo_SDK :=
  SDK_UNKNOWN | SDK_JS | SDK_SWIFT | SDK_ANDROID | SDK_FLUTTER | SDK_GO | SDK_UNITY.

Record ClientInfo := { Sdk : ClientInfo_SDK }.

(** [clientInfo.GetSdk()]: the generated getter accepts a nil receiver and
    then answers the zero value. *)
Definition GetSdk (c : option ClientInfo) : ClientInfo_SDK :=
  match c with Some c => Sdk c | None => SDK_UNKNOWN end.

Record Room := {
  Room_Sid : string;
  Room_Name : string;
  Room_CreationTime : Z
}.

Record ParticipantInfo := {
  Participant_Sid : string;
  Participant_Identity : string
}.

Record TrackInfo := {
  Track_Sid : string;
  Track_Type : TrackType
}.

Record RecordingInfo := {
  Recording_Id : string;
  Recording_RoomName : string
}.

(** [&livekit.Room{Name: roomName}]: every other field keeps its zero value. *)
Definition Room_named (name : string) : Room :=
  {| Room_Sid := ""; Room_Name := name; Room_CreationTime := 0 |}.

(** ** Time *)

(** A [time.Time] instant: seconds since the epoch and the nanoseconds
    within that second. *)
Record Time := { unix_sec : Z; unix_nsec : Z }.

Definition time_Unix (sec nsec : Z) : Time := {| unix_sec := sec; unix_nsec := nsec |}.

Record Timestamp := { Seconds : Z; Nanos : Z }.

(** [timestamppb.New] *)
Definition timestamppb_New (t : Time) : Timestamp :=
  {| Seconds := unix_sec t; Nanos := unix_nsec t |}.

(** ** Events *)

Inductive WebhookEventName :=
  | EventRoomStarted | EventRoomFinished
  | EventParticipantJoined | EventParticipantLeft
  | EventRecordingStarted | EventRecordingFinished.

Record WebhookEvent := {
  we_Event : WebhookEventName;
  we_Room : option Room;
  we_Participant : option ParticipantInfo;
  we_RecordingInfo : option RecordingInfo;
  we_Id : string;
  we_CreatedAt : Z
}.

Inductive AnalyticsEventType :=
  | ROOM_CREATED | ROOM_ENDED
  | PARTICIPANT_JOINED | PARTICIPANT_LEFT
  | TRACK_PUBLISHED | TRACK_UNPUBLISHED
  | TRACK_SUBSCRIBED | TRACK_UNSUBSCRIBED
  | RECORDING_STARTED | RECORDING_ENDED.

Record AnalyticsEvent := {
  ae_Type : AnalyticsEventType;
  ae_Timestamp : Timestamp;
  ae_RoomSid : string;
  ae_ParticipantId : string;
  ae_TrackId : string;
  ae_RecordingId : string;
  ae_Participant : option ParticipantInfo;
  ae_Room : option Room;
  ae_Track : option TrackInfo;
  ae_SdkType : ClientInfo_SDK
}.

(** ** Collaborators *)

(** Go's context type; a context is passed through untouched. *)
Definition context_Context : Type := nat.

(** Addresses of [StatsWorker] objects; the nil pointer is [None] at type
    [option loc]. *)
Abbreviation loc := nat.

(** The calls into package [prometheus]. *)
Inductive prometheus_call :=
  | prometheus_RoomStarted
  | prometheus_RoomEnded (createdAt : Time)
  | prometheus_AddParticipant
  | prometheus_SubParticipant
  | prometheus_AddPublishedTrack (kind : string)
  | prometheus_SubPublishedTrack (kind : string)
  | prometheus_AddSubscribedTrack (kind : string)
  | prometheus_SubSubscribedTrack (kind : string).

(** [webhook.Notifier]: [Notify] answers an error ([Some]) or nil ([None]). *)
Record Notifier := { Notify : context_Context → WebhookEvent → option string }.

(** The function literal handed to [webhookPool.Submit]: it closes over
    [ctx] and [event] (and over [t], whose notifier it reads when it runs). *)
Record Task := { task_ctx : context_Context; task_event : WebhookEvent }.

(** Modelled from the spec: the [StatsWorker] type is declared outside this
    file.  A worker has an owning room id, an owning room name, a participant
    id and a set of open per-track resource handles, keyed by ssrc; [closed]
    records that [Close] ran. *)
Record StatsWorker := {
  roomID : string;
  roomName : string;
  participantID : string;
  buffers : gset Z;
  closed : bool
}.

(** Everything observable that an entry point does, in program order. *)
Inductive Effect :=
  | ELock | EUnlock | ERLock | ERUnlock
  | EMapLoad (k : string) (r : option loc)
  | EMapStore (k : string) (a : loc)
  | EMapDelete (k : string)
  | ENewStatsWorker (a : loc)
  | EClose (a : loc)
  | ERemoveBuffer (a : loc) (ssrc : Z)
  | EMetric (c : prometheus_call)
  | ESubmit (task : Task)
  | ESendEvent (ctx : context_Context) (e : AnalyticsEvent)
  | ENotify (ctx : context_Context) (e : WebhookEvent)
  | EWarnw (msg : string) (err : string) (ev : WebhookEventName).

(** ** The world

    [workers] and [notifier] are the fields of [telemetryService] ([notifier]
    is [None] when the interface value is nil).  [heap] holds the workers
    ever allocated, by address.  [clock] and [guids] are the environment: the
    n-th reading of the wall clock and the n-th random suffix drawn by
    [utils.NewGuid]. *)
Record World := {
  workers : gmap string loc;
  notifier : option Notifier;
  heap : list StatsWorker;
  clock : nat → Time;
  clock_reads : nat;
  guids : nat → string;
  guid_calls : nat
}.

Definition set_workers (f : gmap string loc → gmap string loc) (w : World) : World :=
  {| workers := f (workers w); notifier := notifier w; heap := heap w;
     clock := clock w; clock_reads := clock_reads w;
     guids := guids w; guid_calls := guid_calls w |}.

Definition set_heap (f : list StatsWorker → list StatsWorker) (w : World) : World :=
  {| workers := workers w; notifier := notifier w; heap := f (heap w);
     clock := clock w; clock_reads := clock_reads w;
     guids := guids w; guid_calls := guid_calls w |}.

Definition set_notifier (n : option Notifier) (w : World) : World :=
  {| workers := workers w; notifier := n; heap := heap w;
     clock := clock w; clock_reads := clock_reads w;
     guids := guids w; guid_calls := guid_calls w |}.

Definition tick_clock (w : World) : World :=
  {| workers := workers w; notifier := notifier w; heap := heap w;
     clock := clock w; clock_reads := S (clock_reads w);
     guids := guids w; guid_calls := guid_calls w |}.

Definition tick_guid (w : World) : World :=
  {| workers := workers w; notifier := notifier w; heap := heap w;
     clock := clock w; clock_reads := clock_reads w;
     guids := guids w; guid_calls := S (guid_calls w) |}.

(** ** The monad

    A computation started in a world either finishes with a value, a new
    world and the effects it performed, oldest first, or it panics.  The
    only panics in this model are the dereference of an address that holds
    no worker and a method call on a nil notifier. *)
Inductive outcome (A : Type) :=
  | Ok (a : A) (w : World) (log : list Effect)
  | Panic.
Arguments Ok {A} a w log.
Arguments Panic {A}.

Definition M (A : Type) : Type := World → outcome A.

#[global] Instance M_ret : MRet M := λ A a w, Ok a w [].
#[global] Instance M_bind : MBind M := λ A B f m w,
  match m w with
  | Ok a w' l1 =>
      match f a w' with
      | Ok b w'' l2 => Ok b w'' (l1 ++ l2)
      | Panic => Panic
      end
  | Panic => Panic
  end.

Definition emit (e : Effect) : M unit := λ w, Ok tt w [e].
Definition panic {A} : M A := λ _, Panic.

(** *** The environment *)

(** [time.Now()] *)
Definition time_Now : M Time := λ w, Ok (clock w (clock_reads w)) (tick_clock w) [].

(** [timestamppb.Now()] *)
Definition timestamppb_Now : M Timestamp :=
  now ← time_Now; mret (timestamppb_New now).

(** [utils.NewGuid(prefix)]: the prefix followed by a random suffix. *)
Definition utils_NewGuid (prefix : string) : M string :=
  λ w, Ok (prefix +:+ guids w (guid_calls w)) (tick_guid w) [].

(** *** The registry: [t.workers] and the lock embedded in [t] *)

Definition Lock : M unit := emit ELock.
Definition Unlock : M unit := emit EUnlock.
Definition RLock : M unit := emit ERLock.
Definition RUnlock : M unit := emit ERUnlock.

(** [t.workers[k]]: nil when the key is absent. *)
Definition workers_load (k : string) : M (option loc) :=
  λ w, Ok (workers w !! k) w [EMapLoad k (workers w !! k)].

(** [t.workers[k] = a] *)
Definition workers_store (k : string) (a : loc) : M unit :=
  λ w, Ok tt (set_workers <[k := a]> w) [EMapStore k a].

(** [delete(t.workers, k)] *)
Definition workers_delete (k : string) : M unit :=
  λ w, Ok tt (set_workers (delete k) w) [EMapDelete k].

(** [t.notifier] *)
Definition get_notifier : M (option Notifier) := λ w, Ok (notifier w) w [].

(** *** Workers *)

(** Reading through a worker pointer. *)
Definition deref (a : loc) : M StatsWorker :=
  λ w, match heap w !! a with Some sw => Ok sw w [] | None => Panic end.

Definition assign (a : loc) (sw : StatsWorker) : M unit :=
  λ w, Ok tt (set_heap <[a := sw]> w) [].

(** Modelled from the spec: [newStatsWorker] is defined outside this file.
    It answers a new worker that owns the room id, the room name and the
    participant id it is given and that has no open resource handle yet. *)
Definition fresh_worker (roomID roomName participantID : string) : StatsWorker :=
  {| roomID := roomID; roomName := roomName; participantID := participantID;
     buffers := ∅; closed := false |}.

Definition newStatsWorker (ctx : context_Context) (roomID roomName participantID : string) : M loc :=
  λ w, let a := length (heap w) in
       Ok a (set_heap (λ h, h ++ [fresh_worker roomID roomName participantID]) w)
            [ENewStatsWorker a].

(** Modelled from the spec: the method [Close] of [StatsWorker] is defined
    outside this file.  Closing a worker releases all of its open per-track
    resource handles. *)
Definition closed_worker (sw : StatsWorker) : StatsWorker :=
  {| roomID := roomID sw; roomName := roomName sw; participantID := participantID sw;
     buffers := ∅; closed := true |}.

Definition StatsWorker_Close (a : loc) : M unit :=
  sw ← deref a;
  assign a (closed_worker sw);;
  emit (EClose a).

(** Modelled from the spec: the method [RemoveBuffer] of [StatsWorker] is
    defined outside this file.  It releases the resource handle of one track,
    named by its ssrc. *)
Definition without_buffer (ssrc : Z) (sw : StatsWorker) : StatsWorker :=
  {| roomID := roomID sw; roomName := roomName sw; participantID := participantID sw;
     buffers := buffers sw ∖ {[ ssrc ]}; closed := closed sw |}.

Definition StatsWorker_RemoveBuffer (a : loc) (ssrc : Z) : M unit :=
  sw ← deref a;
  assign a (without_buffer ssrc sw);;
  emit (ERemoveBuffer a ssrc).

(** *** The sinks *)

Definition prometheus (c : prometheus_call) : M unit := emit (EMetric c).
Definition webhookPool_Submit (task : Task) : M unit := emit (ESubmit task).
Definition analytics_SendEvent (ctx : context_Context) (e : AnalyticsEvent) : M unit :=
  emit (ESendEvent ctx e).
Definition logger_Warnw (msg err : string) (ev : WebhookEventName) : M unit :=
  emit (EWarnw msg err ev).

(** ** The source file, function by function

    The entry points read through their [room], [participant], [track] and
    [ri] arguments without a nil check, so a call passes the message itself;
    [clientInfo] is only read through its nil-safe getter and is an
    [option]. *)

(** The body of the function literal in [notifyEvent], run by the pool. *)
Definition run_task (task : Task) : M unit :=
  n ← get_notifier;
  match n with
  | None => panic
  | Some n =>
      emit (ENotify (task_ctx task) (task_event task));;
      match Notify n (task_ctx task) (task_event task) with
      | Some err =>
          logger_Warnw "failed to notify webhook" err (we_Event (task_event task))
      | None => mret tt
      end
  end.

Definition notifyEvent (ctx : context_Context) (event : WebhookEvent) : M unit :=
  n ← get_notifier;
  match n with
  | None => mret tt
  | Some _ =>
      now ← time_Now;
      let event := {| we_Event := we_Event event; we_Room := we_Room event;
                      we_Participant := we_Participant event;
                      we_RecordingInfo := we_RecordingInfo event;
                      we_Id := we_Id event; we_CreatedAt := unix_sec now |} in
      id ← utils_NewGuid "EV_";
      let event := {| we_Event := we_Event event; we_Room := we_Room event;
                      we_Participant := we_Participant event;
                      we_RecordingInfo := we_RecordingInfo event;
                      we_Id := id; we_CreatedAt := we_CreatedAt event |} in
      webhookPool_Submit {| task_ctx := ctx; task_event := event |}
  end.

Definition getRoomDetails (participantID : string) : M (string * string) :=
  RLock;;
  w ← workers_load participantID;
  RUnlock;;
  match w with
  | Some a =>
      sw ← deref a;
      mret (roomID sw, roomName sw)
  | None => mret ("", "")
  end.

Definition RoomStarted (ctx : context_Context) (room : Room) : M unit :=
  prometheus prometheus_RoomStarted;;
  notifyEvent ctx {| we_Event := EventRoomStarted; we_Room := Some room;
                     we_Participant := None; we_RecordingInfo := None;
                     we_Id := ""; we_CreatedAt := 0 |};;
  analytics_SendEvent ctx
    {| ae_Type := ROOM_CREATED;
       ae_Timestamp := {| Seconds := Room_CreationTime room; Nanos := 0 |};
       ae_RoomSid := ""; ae_ParticipantId := ""; ae_TrackId := ""; ae_RecordingId := "";
       ae_Participant := None; ae_Room := Some room; ae_Track := None;
       ae_SdkType := SDK_UNKNOWN |}.

Definition RoomEnded (ctx : context_Context) (room : Room) : M unit :=
  prometheus (prometheus_RoomEnded (time_Unix (Room_CreationTime room) 0));;
  notifyEvent ctx {| we_Event := EventRoomFinished; we_Room := Some room;
                     we_Participant := None; we_RecordingInfo := None;
                     we_Id := ""; we_CreatedAt := 0 |};;
  now ← timestamppb_Now;
  analytics_SendEvent ctx
    {| ae_Type := ROOM_ENDED; ae_Timestamp := now;
       ae_RoomSid := Room_Sid room; ae_ParticipantId := ""; ae_TrackId := "";
       ae_RecordingId := ""; ae_Participant := None; ae_Room := Some room;
       ae_Track := None; ae_SdkType := SDK_UNKNOWN |}.

Definition ParticipantJoined (ctx : context_Context) (room : Room)
    (participant : ParticipantInfo) (clientInfo : option ClientInfo) : M unit :=
  Lock;;
  a ← newStatsWorker ctx (Room_Sid room) (Room_Name room) (Participant_Sid participant);
  workers_store (Participant_Sid participant) a;;
  Unlock;;
  prometheus prometheus_AddParticipant;;
  notifyEvent ctx {| we_Event := EventParticipantJoined; we_Room := Some room;
                     we_Participant := Some participant; we_RecordingInfo := None;
                     we_Id := ""; we_CreatedAt := 0 |};;
  now ← timestamppb_Now;
  analytics_SendEvent ctx
    {| ae_Type := PARTICIPANT_JOINED; ae_Timestamp := now;
       ae_RoomSid := Room_Sid room; ae_ParticipantId := ""; ae_TrackId := "";
       ae_RecordingId := ""; ae_Participant := Some participant; ae_Room := Some room;
       ae_Track := None; ae_SdkType := GetSdk clientInfo |}.

Definition ParticipantLeft (ctx : context_Context) (room : Room)
    (participant : ParticipantInfo) : M unit :=
  Lock;;
  w ← workers_load (Participant_Sid participant);
  match w with
  | Some a =>
      StatsWorker_Close a;;
      workers_delete (Participant_Sid participant)
  | None => mret tt
  end;;
  Unlock;;
  prometheus prometheus_SubParticipant;;
  notifyEvent ctx {| we_Event := EventParticipantLeft; we_Room := Some room;
                     we_Participant := Some participant; we_RecordingInfo := None;
                     we_Id := ""; we_CreatedAt := 0 |};;
  now ← timestamppb_Now;
  analytics_SendEvent ctx
    {| ae_Type := PARTICIPANT_LEFT; ae_Timestamp := now;
       ae_RoomSid := Room_Sid room; ae_ParticipantId := Participant_Sid participant;
       ae_TrackId := ""; ae_RecordingId := ""; ae_Participant := None;
       ae_Room := Some room; ae_Track := None; ae_SdkType := SDK_UNKNOWN |}.

Definition TrackPublished (ctx : context_Context) (participantID : string)
    (track : TrackInfo) : M unit :=
  prometheus (prometheus_AddPublishedTrack (TrackType_String (Track_Type track)));;
  '(roomID, roomName) ← getRoomDetails participantID;
  now ← timestamppb_Now;
  analytics_SendEvent ctx
    {| ae_Type := TRACK_PUBLISHED; ae_Timestamp := now;
       ae_RoomSid := roomID; ae_ParticipantId := participantID; ae_TrackId := "";
       ae_RecordingId := ""; ae_Participant := None;
       ae_Room := Some (Room_named roomName); ae_Track := Some track;
       ae_SdkType := SDK_UNKNOWN |}.

Definition TrackUnpublished (ctx : context_Context) (participantID : string)
    (track : TrackInfo) (ssrc : Z) : M unit :=
  RLock;;
  w ← workers_load participantID;
  RUnlock;;
  '(roomID, roomName) ←
    match w with
    | Some a =>
        sw ← deref a;
        let roomID := roomID sw in
        StatsWorker_RemoveBuffer a ssrc;;
        sw ← deref a;
        mret (roomID, roomName sw)
    | None => mret ("", "")
    end;
  prometheus (prometheus_SubPublishedTrack (TrackType_String (Track_Type track)));;
  now ← timestamppb_Now;
  analytics_SendEvent ctx
    {| ae_Type := TRACK_UNPUBLISHED; ae_Timestamp := now;
       ae_RoomSid := roomID; ae_ParticipantId := participantID;
       ae_TrackId := Track_Sid track; ae_RecordingId := ""; ae_Participant := None;
       ae_Room := Some (Room_named roomName); ae_Track := None;
       ae_SdkType := SDK_UNKNOWN |}.

Definition TrackSubscribed (ctx : context_Context) (participantID : string)
    (track : TrackInfo) : M unit :=
  prometheus (prometheus_AddSubscribedTrack (TrackType_String (Track_Type track)));;
  '(roomID, roomName) ← getRoomDetails participantID;
  now ← timestamppb_Now;
  analytics_SendEvent ctx
    {| ae_Type := TRACK_SUBSCRIBED; ae_Timestamp := now;
       ae_RoomSid := roomID; ae_ParticipantId := participantID;
       ae_TrackId := Track_Sid track; ae_RecordingId := ""; ae_Participant := None;
       ae_Room := Some (Room_named roomName); ae_Track := None;
       ae_SdkType := SDK_UNKNOWN |}.

Definition TrackUnsubscribed (ctx : context_Context) (participantID : string)
    (track : TrackInfo) : M unit :=
  prometheus (prometheus_SubSubscribedTrack (TrackType_String (Track_Type track)));;
  '(roomID, roomName) ← getRoomDetails participantID;
  now ← timestamppb_Now;
  analytics_SendEvent ctx
    {| ae_Type := TRACK_UNSUBSCRIBED; ae_Timestamp := now;
       ae_RoomSid := roomID; ae_ParticipantId := participantID;
       ae_TrackId := Track_Sid track; ae_RecordingId := ""; ae_Participant := None;
       ae_Room := Some (Room_named roomName); ae_Track := None;
       ae_SdkType := SDK_UNKNOWN |}.

Definition RecordingStarted (ctx : context_Context) (ri : RecordingInfo) : M unit :=
  notifyEvent ctx {| we_Event := EventRecordingStarted; we_Room := None;
                     we_Participant := None; we_RecordingInfo := Some ri;
                     we_Id := ""; we_CreatedAt := 0 |};;
  now ← timestamppb_Now;
  analytics_SendEvent ctx
    {| ae_Type := RECORDING_STARTED; ae_Timestamp := now;
       ae_RoomSid := ""; ae_ParticipantId := ""; ae_TrackId := "";
       ae_RecordingId := Recording_Id ri; ae_Participant := None;
       ae_Room := Some (Room_named (Recording_RoomName ri)); ae_Track := None;
       ae_SdkType := SDK_UNKNOWN |}.

Definition RecordingEnded (ctx : context_Context) (ri : RecordingInfo) : M unit :=
  notifyEvent ctx {| we_Event := EventRecordingFinished; we_Room := None;
                     we_Participant := None; we_RecordingInfo := Some ri;
                     we_Id := ""; we_CreatedAt := 0 |};;
  now ← timestamppb_Now;
  analytics_SendEvent ctx
    {| ae_Type := RECORDING_ENDED; ae_Timestamp := now;
       ae_RoomSid := ""; ae_ParticipantId := ""; ae_TrackId := "";
       ae_RecordingId := Recording_Id ri; ae_Participant := None;
       ae_Room := Some (Room_named (Recording_RoomName ri)); ae_Track := None;
       ae_SdkType := SDK_UNKNOWN |}.

(** ** Calls and runs

    The ten exported entry points as one type, so that properties can range
    over every entry point and over sequences of calls. *)

Inductive Call :=
  | CallRoomStarted (ctx : context_Context) (room : Room)
  | CallRoomEnded (ctx : context_Context) (room : Room)
  | CallParticipantJoined (ctx : context_Context) (room : Room)
      (participant : ParticipantInfo) (clientInfo : option ClientInfo)
  | CallParticipantLeft (ctx : context_Context) (room : Room) (participant : ParticipantInfo)
  | CallTrackPublished (ctx : context_Context) (participantID : string) (track : TrackInfo)
  | CallTrackUnpublished (ctx : context_Context) (participantID : string) (track : TrackInfo)
      (ssrc : Z)
  | CallTrackSubscribed (ctx : context_Context) (participantID : string) (track : TrackInfo)
  | CallTrackUnsubscribed (ctx : context_Context) (participantID : string) (track : TrackInfo)
  | CallRecordingStarted (ctx : context_Context) (ri : RecordingInfo)
  | CallRecordingEnded (ctx : context_Context) (ri : RecordingInfo).

Definition dispatch (c : Call) : M unit :=
  match c with
  | CallRoomStarted ctx room => RoomStarted ctx room
  | CallRoomEnded ctx room => RoomEnded ctx room
  | CallParticipantJoined ctx room p ci => ParticipantJoined ctx room p ci
  | CallParticipantLeft ctx room p => ParticipantLeft ctx room p
  | CallTrackPublished ctx pid track => TrackPublished ctx pid track
  | CallTrackUnpublished ctx pid track ssrc => TrackUnpublished ctx pid track ssrc
  | CallTrackSubscribed ctx pid track => TrackSubscribed ctx pid track
  | CallTrackUnsubscribed ctx pid track => TrackUnsubscribed ctx pid track
  | CallRecordingStarted ctx ri => RecordingStarted ctx ri
  | CallRecordingEnded ctx ri => RecordingEnded ctx ri
  end.

Fixpoint run (cs : list Call) : M unit :=
  match cs with
  | [] => mret tt
  | c :: cs => dispatch c;; run cs
  end.

(** The effects of a computation started in [w]; none if it panics. *)
Definition effects_of {A} (m : M A) (w : World) : list Effect :=
  match m w with
  | Ok _ _ log => log
  | Panic => []
  end.

(** ** Well-formed registries

    Every registered address holds a worker that has not been closed, and no
    two identities share a worker. *)
Definition registry_wf (w : World) : Prop :=
  map_Forall (λ p a,
    closed <$> (heap w !! a) = Some false ∧
    map_Forall (λ q b, b = a → q = p) (workers w)) (workers w).

#[global] Instance registry_wf_dec (w : World) : Decision (registry_wf w).
Proof. unfold registry_wf. apply _. Defined.

(** ** Reading an effect log *)

(** The calls into the three sinks, in order. *)
Definition is_sink (e : Effect) : bool :=
  match e with
  | EMetric _ | ESubmit _ | ESendEvent _ _ => true
  | _ => false
  end.

Definition sinks (log : list Effect) : list Effect := List.filter is_sink log.

Definition metrics (log : list Effect) : list prometheus_call :=
  omap (λ e, match e with EMetric c => Some c | _ => None end) log.

Definition submissions (log : list Effect) : list Task :=
  omap (λ e, match e with ESubmit t => Some t | _ => None end) log.

Definition analytics_events (log : list Effect) : list AnalyticsEvent :=
  omap (λ e, match e with ESendEvent _ ev => Some ev | _ => None end) log.

(** The webhook step leaves one of these in the log when it delivers or
    logs. *)
Definition is_delivery (e : Effect) : bool :=
  match e with
  | ESubmit _ | ENotify _ _ | EWarnw _ _ _ => true
  | _ => false
  end.

(** The registry lookups, with the pointer each one answered. *)
Definition registry_loads (log : list Effect) : list (string * option loc) :=
  omap (λ e, match e with EMapLoad k r => Some (k, r) | _ => None end) log.

(** The workers closed. *)
Definition closes (log : list Effect) : list loc :=
  omap (λ e, match e with EClose a => Some a | _ => None end) log.

(** The per-track releases, with the worker each one was applied to. *)
Definition releases (log : list Effect) : list (loc * Z) :=
  omap (λ e, match e with ERemoveBuffer a ssrc => Some (a, ssrc) | _ => None end) log.

Definition erase_timestamp (e : AnalyticsEvent) : AnalyticsEvent :=
  {| ae_Type := ae_Type e; ae_Timestamp := {| Seconds := 0; Nanos := 0 |};
     ae_RoomSid := ae_RoomSid e; ae_ParticipantId := ae_ParticipantId e;
     ae_TrackId := ae_TrackId e; ae_RecordingId := ae_RecordingId e;
     ae_Participant := ae_Participant e; ae_Room := ae_Room e;
     ae_Track := ae_Track e; ae_SdkType := ae_SdkType e |}.

(** ** The fan-out the specification describes

    These two tables follow the words of the specification, not the code:
    the metrics call that belongs to a lifecycle transition (counters exist
    for rooms, participants and published or subscribed tracks), and the
    webhook event that belongs to it (the webhook payload is a tagged union
    over room, participant and recording events). *)

Definition relevant_metric (c : Call) : option prometheus_call :=
  match c with
  | CallRoomStarted _ _ => Some prometheus_RoomStarted
  | CallRoomEnded _ room =>
      Some (prometheus_RoomEnded (time_Unix (Room_CreationTime room) 0))
  | CallParticipantJoined _ _ _ _ => Some prometheus_AddParticipant
  | CallParticipantLeft _ _ _ => Some prometheus_SubParticipant
  | CallTrackPublished _ _ t =>
      Some (prometheus_AddPublishedTrack (TrackType_String (Track_Type t)))
  | CallTrackUnpublished _ _ t _ =>
      Some (prometheus_SubPublishedTrack (TrackType_String (Track_Type t)))
  | CallTrackSubscribed _ _ t =>
      Some (prometheus_AddSubscribedTrack (TrackType_String (Track_Type t)))
  | CallTrackUnsubscribed _ _ t =>
      Some (prometheus_SubSubscribedTrack (TrackType_String (Track_Type t)))
  | CallRecordingStarted _ _ | CallRecordingEnded _ _ => None
  end.

Definition webhook_event_name (c : Call) : option WebhookEventName :=
  match c with
  | CallRoomStarted _ _ => Some EventRoomStarted
  | CallRoomEnded _ _ => Some EventRoomFinished
  | CallParticipantJoined _ _ _ _ => Some EventParticipantJoined
  | CallParticipantLeft _ _ _ => Some EventParticipantLeft
  | CallRecordingStarted _ _ => Some EventRecordingStarted
  | CallRecordingEnded _ _ => Some EventRecordingFinished
  | _ => None
  end.

(** The sequence as the specification words it for every entry point: a
    metrics update, then, exactly when a notifier is configured, one
    submission to the delivery pool, then one analytics hand-off. *)
Definition fans_out_in_full (c : Call) (w : World) : Prop :=
  ∃ w' log m ctx ev,
    dispatch c w = Ok tt w' log ∧
    sinks log = [EMetric m] ++ (ESubmit <$> submissions log) ++ [ESendEvent ctx ev] ∧
    length (submissions log) = match notifier w with Some _ => 1%nat | None => 0%nat end.


(** [ParticipantLeft] for the participant [sid]. *)
Definition is_leave_of (sid : string) (c : Call) : bool :=
  match c with
  | CallParticipantLeft _ _ p => bool_decide (Participant_Sid p = sid)
  | _ => false
  end.

(** What [notifyEvent] writes into an event handed over in world [w]. *)
Definition stamped_in (w : World) (task : Task) : Prop :=
  we_Id (task_event task) = "EV_" +:+ guids w (guid_calls w) ∧
  we_CreatedAt (task_event task) = unix_sec (clock w (clock_reads w)).

(** ** What a call does to the registry and to the workers

    Seven of the entry points leave both alone; [ParticipantJoined] stores a
    new worker, [ParticipantLeft] closes and deletes the one it finds, and
    [TrackUnpublished] releases one handle of the one it finds. *)
Inductive footprint (c : Call) (w w' : World) (log : list Effect) : Prop :=
  | footprint_none :
      workers w' = workers w → heap w' = heap w →
      closes log = [] → releases log = [] →
      footprint c w w' log
  | footprint_join ctx room p ci :
      c = CallParticipantJoined ctx room p ci →
      workers w' = <[Participant_Sid p := length (heap w)]> (workers w) →
      heap w' = heap w ++ [fresh_worker (Room_Sid room) (Room_Name room) (Participant_Sid p)] →
      closes log = [] → releases log = [] →
      footprint c w w' log
  | footprint_leave ctx room p a sw :
      c = CallParticipantLeft ctx room p →
      workers w !! Participant_Sid p = Some a → heap w !! a = Some sw →
      workers w' = delete (Participant_Sid p) (workers w) →
      heap w' = <[a := closed_worker sw]> (heap w) →
      closes log = [a] → releases log = [] →
      footprint c w w' log
  | footprint_unpublish ctx pid track ssrc a sw :
      c = CallTrackUnpublished ctx pid track ssrc →
      workers w !! pid = Some a → heap w !! a = Some sw →
      workers w' = workers w →
      heap w' = <[a := without_buffer ssrc sw]> (heap w) →
      closes log = [] → releases log = [(a, ssrc)] →
      footprint c w w' log.

(** An allocated worker that no identity maps to. *)
Definition unreachable (a : loc) (w : World) : Prop :=
  (a < length (heap w))%nat ∧ ∀ q, workers w !! q ≠ Some a.

(** An open worker that is registered, if at all, under [sid] only. *)
Definition held_by (sid : string) (a : loc) (w : World) : Prop :=
  (a < length (heap w))%nat ∧ closed <$> (heap w !! a) = Some false
  ∧ ∀ q, workers w !! q = Some a → q = sid.

(** Code outside this file opens and releases the handles of a worker
    between two calls of the entry points.  [handles_moved w w'] says that
    [w'] is [w] up to that: the same registry and notifier, the same workers
    at the same addresses, each as open or closed as before, with any
    handles. *)
Definition same_worker (s s' : StatsWorker) : Prop :=
  roomID s' = roomID s ∧ roomName s' = roomName s
  ∧ participantID s' = participantID s ∧ closed s' = closed s.

Definition handles_moved (w w' : World) : Prop :=
  workers w' = workers w ∧ notifier w' = notifier w
  ∧ Forall2 same_worker (heap w) (heap w').


(** ** Sample values *)

Definition sample_room : Room :=
  {| Room_Sid := "R1"; Room_Name := "Room A"; Room_CreationTime := 900 |}.
Definition sample_participant : ParticipantInfo :=
  {| Participant_Sid := "P1"; Participant_Identity := "alice" |}.
Definition sample_track : TrackInfo := {| Track_Sid := "T1"; Track_Type := AUDIO |}.
Definition sample_recording : RecordingInfo :=
  {| Recording_Id := "RC1"; Recording_RoomName := "Room A" |}.
Definition sample_notifier : Notifier := {| Notify := λ _ _, None |}.

(** A service with a notifier and nobody in the registry; the clock shows
    second [1000 + n] at its n-th reading and the n-th id suffix is [n]
    in decimal. *)
Definition sample_world : World :=
  {| workers := ∅; notifier := Some sample_notifier; heap := [];
     clock := λ n, {| unix_sec := 1000 + Z.of_nat n; unix_nsec := 5 |};
     clock_reads := 0; guids := λ n, pretty n; guid_calls := 0 |}.


(** The same service without a notifier. *)
Definition sample_world_quiet : World := set_notifier None sample_world.

(** The world after a computation, or the starting world if it panics. *)
Definition world_after {A} (m : M A) (w : World) : World :=
  match m w with
  | Ok _ w' _ => w'
  | Panic => w
  end.

(** Opens the handle [ssrc] on every worker. *)
Definition open_handle (ssrc : Z) (w : World) : World :=
  set_heap (λ h, (λ sw, {| roomID := roomID sw; roomName := roomName sw;
                           participantID := participantID sw;
                           buffers := buffers sw ∪ {[ ssrc ]};
                           closed := closed sw |}) <$> h) w.

(** The sample service once [sample_participant] has joined and has one
    open track handle. *)
Definition sample_world_joined : World :=
  open_handle 7
    (world_after (ParticipantJoined 0%nat sample_room sample_participant None) sample_world).

(** ** Lock discipline

    The state of the lock embedded in [telemetryService], and what each
    effect of the source file may find it in: the map is read under either
    lock and written under the exclusive one, where workers are also created
    and closed; the sinks and the release of a track's handle run with the
    lock free. *)
Inductive lock_state := Unlocked | WriteLocked | ReadLocked.

Definition lock_step (st : lock_state) (e : Effect) : option lock_state :=
  match e, st with
  | ELock, Unlocked => Some WriteLocked
  | EUnlock, WriteLocked => Some Unlocked
  | ERLock, Unlocked => Some ReadLocked
  | ERUnlock, ReadLocked => Some Unlocked
  | EMapLoad _ _, (WriteLocked | ReadLocked) => Some st
  | (EMapStore _ _ | EMapDelete _ | ENewStatsWorker _ | EClose _), WriteLocked => Some st
  | (ERemoveBuffer _ _ | EMetric _ | ESubmit _ | ESendEvent _ _
     | ENotify _ _ | EWarnw _ _ _), Unlocked => Some st
  | _, _ => None
  end.

Fixpoint lock_run (st : lock_state) (log : list Effect) : option lock_state :=
  match log with
  | [] => Some st
  | e :: log =>
      match lock_step st e with
      | Some st' => lock_run st' log
      | None => None
      end
  end.

(** ** Who is registered *)

(** [ParticipantJoined] or [ParticipantLeft] for the participant [sid]. *)
Definition is_join_or_leave_of (sid : string) (c : Call) : bool :=
  match c with
  | CallParticipantJoined _ _ p _ | CallParticipantLeft _ _ p =>
      bool_decide (Participant_Sid p = sid)
  | _ => false
  end.

(** The identities registered after a sequence of calls, from those
    registered before it: a join adds its identity and a leave removes it. *)
Fixpoint registered_after (cs : list Call) (ids : gset string) : gset string :=
  match cs with
  | [] => ids
  | CallParticipantJoined _ _ p _ :: cs =>
      registered_after cs ({[ Participant_Sid p ]} ∪ ids)
  | CallParticipantLeft _ _ p :: cs =>
      registered_after cs (ids ∖ {[ Participant_Sid p ]})
  | _ :: cs => registered_after cs ids
  end.

(** ** The participant gauge *)

(** The net change of the participant gauge over some metrics calls. *)
Definition participants_delta (ms : list prometheus_call) : Z :=
  foldr (λ m acc,
    match m with
    | prometheus_AddParticipant => 1 + acc
    | prometheus_SubParticipant => acc - 1
    | _ => acc
    end) 0 ms.

(** How far a call moves the gauge away from the size of the registry: a
    join for an identity that is registered counts it again, a leave for
    one that is not registered discounts nobody. *)
Definition gauge_drift (c : Call) (w : World) : Z :=
  match c with
  | CallParticipantJoined _ _ p _ =>
      match workers w !! Participant_Sid p with Some _ => 1 | None => 0 end
  | CallParticipantLeft _ _ p =>
      match workers w !! Participant_Sid p with Some _ => 0 | None => -1 end
  | _ => 0
  end.

(** ** Deliveries *)

(** The effects of the function literal of [notifyEvent] when [Notify]
    answers [r]. *)
Definition delivery_effects (task : Task) (r : option string) : list Effect :=
  ENotify (task_ctx task) (task_event task)
  :: match r with
     | Some err =>
         [EWarnw "failed to notify webhook" err (we_Event (task_event task))]
     | None => []
     end.

(** ** The analytics stream *)

(** The context and the event of each analytics hand-off. *)
Definition sends (log : list Effect) : list (context_Context * AnalyticsEvent) :=
  omap (λ e, match e with ESendEvent ctx ev => Some (ctx, ev) | _ => None end) log.

(** The context a call is given. *)
Definition call_ctx (c : Call) : context_Context :=
  match c with
  | CallRoomStarted ctx _ | CallRoomEnded ctx _
  | CallParticipantJoined ctx _ _ _ | CallParticipantLeft ctx _ _
  | CallTrackPublished ctx _ _ | CallTrackUnpublished ctx _ _ _
  | CallTrackSubscribed ctx _ _ | CallTrackUnsubscribed ctx _ _
  | CallRecordingStarted ctx _ | CallRecordingEnded ctx _ => ctx
  end.

(** The type tag that each entry point gives its analytics event. *)
Definition analytics_type (c : Call) : AnalyticsEventType :=
  match c with
  | CallRoomStarted _ _ => ROOM_CREATED
  | CallRoomEnded _ _ => ROOM_ENDED
  | CallParticipantJoined _ _ _ _ => PARTICIPANT_JOINED
  | CallParticipantLeft _ _ _ => PARTICIPANT_LEFT
  | CallTrackPublished _ _ _ => TRACK_PUBLISHED
  | CallTrackUnpublished _ _ _ _ => TRACK_UNPUBLISHED
  | CallTrackSubscribed _ _ _ => TRACK_SUBSCRIBED
  | CallTrackUnsubscribed _ _ _ => TRACK_UNSUBSCRIBED
  | CallRecordingStarted _ _ => RECORDING_STARTED
  | CallRecordingEnded _ _ => RECORDING_ENDED
  end.

(** The three entry points that write to the registry or to a worker. *)
Definition writes_workers (c : Call) : bool :=
  match c with
  | CallParticipantJoined _ _ _ _ | CallParticipantLeft _ _ _
  | CallTrackUnpublished _ _ _ _ => true
  | _ => false
  end.

(** ** Proof tools *)

(** Unfolds the entry points and the operations of the monad. *)
Ltac unfold_M :=
  unfold dispatch, RoomStarted, RoomEnded, ParticipantJoined, ParticipantLeft,
    TrackPublished, TrackUnpublished, TrackSubscribed, TrackUnsubscribed,
    RecordingStarted, RecordingEnded, notifyEvent, getRoomDetails,
    StatsWorker_Close, StatsWorker_RemoveBuffer, newStatsWorker, deref, assign,
    prometheus, webhookPool_Submit, analytics_SendEvent, logger_Warnw,
    timestamppb_Now, time_Now, utils_NewGuid, get_notifier,
    workers_load, workers_store, workers_delete, Lock, Unlock, RLock, RUnlock,
    emit, panic, mbind, M_bind, mret, M_ret in *.

(** Closes [x ∉ l] for the short lists that the log projections compute to. *)
Ltac notin :=
  simpl;
  first [ apply not_elem_of_nil
        | by (intros ?%list_elem_of_singleton; congruence)
        | by (apply not_elem_of_app; split) ].

(** Resolves the registry lookup in the goal: in a well-formed world a
    registered address holds a worker. *)
Ltac resolve_worker w Hwf :=
  try match goal with
  | |- context [workers w !! ?k] =>
      let a := fresh "a" in
      let Hp := fresh "Hp" in
      let sw := fresh "sw" in
      let Ha := fresh "Ha" in
      let Hc := fresh "Hc" in
      destruct (workers w !! k) as [a|] eqn:Hp; simpl;
      [ destruct (Hwf k a Hp) as [Hc _];
        destruct (heap w !! a) as [sw|] eqn:Ha; [clear Hc | discriminate Hc];
        simpl; rewrite ?Ha; simpl;
        rewrite ?list_lookup_insert_eq by (by eapply lookup_lt_Some); simpl
      | ]
  end.

(** Runs the body of the call [c] in the goal. *)
Ltac run_call c w Hwf :=
  destruct c; unfold_M; simpl; resolve_worker w Hwf.

(** * Properties *)

Lemma lookup_new_worker (h : list StatsWorker) (sw : StatsWorker) :
  (h ++ [sw]) !! length h = Some sw.
Proof. rewrite lookup_app_r by lia. by rewrite Nat.sub_diag. Qed.

(** ** Join, leave and the room-context lookup *)

(** C4. [ParticipantJoined] for a participant and a room, followed at once by
    the room-context lookup for that participant, answers the [Sid] and the
    [Name] of the room that was passed to the join. *)
Theorem join_then_lookup ctx room p ci w :
  ∃ w' log,
    (ParticipantJoined ctx room p ci;; getRoomDetails (Participant_Sid p)) w
    = Ok (Room_Sid room, Room_Name room) w' log.
Proof.
  unfold_M. destruct (notifier w) eqn:Hn; simpl; rewrite Hn; simpl;
    rewrite lookup_insert_eq; simpl; rewrite lookup_new_worker; simpl; eauto.
Qed.

(** C3. After [ParticipantJoined] for a participant and then
    [ParticipantLeft] for the same identity, the room-context lookup finds no
    worker: the map load answers nil, the lookup answers the empty room id
    and name, and the identity is absent from the registry. *)
Theorem join_leave_then_lookup ctx room p ci ctx' room' ident' w :
  let sid := Participant_Sid p in
  let p' := {| Participant_Sid := sid; Participant_Identity := ident' |} in
  ∃ w' log,
    (ParticipantJoined ctx room p ci;; ParticipantLeft ctx' room' p';;
     getRoomDetails sid) w = Ok ("", "") w' log
    ∧ workers w' !! sid = None
    ∧ last (registry_loads log) = Some (sid, None).
Proof.
  unfold_M. destruct (notifier w) eqn:Hn; simpl; rewrite Hn; simpl;
    rewrite lookup_insert_eq; simpl; rewrite lookup_new_worker; simpl; rewrite ?Hn; simpl;
    rewrite !lookup_delete_eq; simpl;
    (do 2 eexists; split; [reflexivity|]; split; [apply lookup_delete_eq | reflexivity]).
Qed.

(** C5. For an identity with no worker in the registry the room-context
    lookup answers the empty room id and name, and [TrackUnpublished] for it
    finishes, touches no worker and hands over one analytics event whose
    [RoomSid] and [Room.Name] are empty. *)
Theorem absent_worker_degrades ctx pid track ssrc w :
  workers w !! pid = None →
  getRoomDetails pid w = Ok ("", "") w [ERLock; EMapLoad pid None; ERUnlock]
  ∧ ∃ w' log ev,
      TrackUnpublished ctx pid track ssrc w = Ok tt w' log
      ∧ workers w' = workers w ∧ heap w' = heap w ∧ releases log = []
      ∧ analytics_events log = [ev]
      ∧ ae_Type ev = TRACK_UNPUBLISHED
      ∧ ae_RoomSid ev = ""
      ∧ ae_Room ev = Some {| Room_Sid := ""; Room_Name := ""; Room_CreationTime := 0 |}.
Proof.
  intros Hnone. unfold_M. simpl. rewrite Hnone. simpl. split; [done|].
  do 3 eexists. split; [reflexivity|]. simpl. done.
Qed.

Lemma absent_worker_degrades_witness :
  getRoomDetails "P9" sample_world
  = Ok ("", "") sample_world [ERLock; EMapLoad "P9" None; ERUnlock]
  ∧ ∃ w' log ev,
      TrackUnpublished 0%nat "P9" sample_track 7 sample_world = Ok tt w' log
      ∧ workers w' = workers sample_world ∧ heap w' = heap sample_world
      ∧ releases log = []
      ∧ analytics_events log = [ev]
      ∧ ae_Type ev = TRACK_UNPUBLISHED
      ∧ ae_RoomSid ev = ""
      ∧ ae_Room ev = Some {| Room_Sid := ""; Room_Name := ""; Room_CreationTime := 0 |}.
Proof. apply (absent_worker_degrades 0%nat "P9" sample_track 7 sample_world). reflexivity. Defined.

Lemma ParticipantLeft_absent ctx room p w :
  workers w !! Participant_Sid p = None →
  ∃ w' log,
    ParticipantLeft ctx room p w = Ok tt w' log
    ∧ workers w' = workers w ∧ heap w' = heap w
    ∧ closes log = [].
Proof.
  intros Hnone. unfold_M. simpl. rewrite Hnone. simpl.
  destruct (notifier w); simpl; do 2 eexists; (split; [reflexivity|]); simpl; done.
Qed.

Lemma ParticipantLeft_removes ctx room p w w' log :
  ParticipantLeft ctx room p w = Ok tt w' log →
  workers w' !! Participant_Sid p = None.
Proof.
  unfold_M. simpl.
  destruct (workers w !! Participant_Sid p) as [a|] eqn:Hp; simpl.
  - destruct (heap w !! a); simpl; [|done].
    destruct (notifier w); simpl; intros [= <- _]; simpl; apply lookup_delete_eq.
  - destruct (notifier w); simpl; intros [= <- _]; simpl; done.
Qed.

(** C8. [ParticipantLeft] for an identity that has no worker in the registry
    leaves the registry and every worker as they were, closing and deleting
    nothing; so after one [ParticipantLeft] for an identity, a second one for
    the same identity changes nothing in the registry. *)
Theorem leave_absent_is_noop ctx room p w :
  (workers w !! Participant_Sid p = None →
   ∃ w' log,
     ParticipantLeft ctx room p w = Ok tt w' log
     ∧ workers w' = workers w ∧ heap w' = heap w
     ∧ closes log = [])
  ∧ (∀ w1 log1 ctx' room',
       ParticipantLeft ctx room p w = Ok tt w1 log1 →
       ∃ w2 log2,
         ParticipantLeft ctx' room' p w1 = Ok tt w2 log2
         ∧ workers w2 = workers w1 ∧ heap w2 = heap w1
         ∧ closes log2 = []).
Proof.
  split.
  - apply ParticipantLeft_absent.
  - intros w1 log1 ctx' room' H1. apply ParticipantLeft_absent.
    eapply ParticipantLeft_removes, H1.
Qed.

Lemma leave_absent_is_noop_witness :
  let leave := ParticipantLeft 0%nat sample_room sample_participant in
  (∃ w' log,
     leave sample_world = Ok tt w' log
     ∧ workers w' = workers sample_world ∧ heap w' = heap sample_world
     ∧ closes log = [])
  ∧ (∃ w2 log2,
       leave (world_after leave sample_world_joined) = Ok tt w2 log2
       ∧ workers w2 = workers (world_after leave sample_world_joined)
       ∧ heap w2 = heap (world_after leave sample_world_joined)
       ∧ closes log2 = []).
Proof.
  split.
  - apply (leave_absent_is_noop 0%nat sample_room sample_participant sample_world).
    reflexivity.
  - apply (proj2 (leave_absent_is_noop 0%nat sample_room sample_participant
                    sample_world_joined)
             _ (effects_of (ParticipantLeft 0%nat sample_room sample_participant)
                  sample_world_joined)).
    vm_compute. reflexivity.
Defined.

(** ** Every call, case by case *)

Lemma wf_allocated w p a :
  registry_wf w → workers w !! p = Some a →
  ∃ sw, heap w !! a = Some sw ∧ closed sw = false.
Proof.
  intros Hwf Hp. destruct (Hwf p a Hp) as [Hc _].
  destruct (heap w !! a) as [sw|]; [|done]. exists sw. split; [done|].
  simpl in Hc. congruence.
Qed.

Lemma wf_injective w p q a :
  registry_wf w → workers w !! p = Some a → workers w !! q = Some a → q = p.
Proof. intros Hwf Hp Hq. destruct (Hwf p a Hp) as [_ Hi]. by apply (Hi q a Hq). Qed.

(** A service that has registered nobody is well formed; the calls keep it
    so ([dispatch_preserves_wf] below), hence every world that the entry
    points can reach from a new service is well formed. *)
Lemma registry_wf_empty w : workers w = ∅ → registry_wf w.
Proof. intros Hw p a Hp. rewrite Hw in Hp. by apply lookup_empty_Some in Hp. Qed.

Lemma dispatch_footprint c w w' log :
  dispatch c w = Ok tt w' log →
  footprint c w w' log
  ∧ notifier w' = notifier w ∧ clock w' = clock w ∧ guids w' = guids w.
Proof.
  destruct c as [ctx room|ctx room|ctx room p ci|ctx room p|ctx pid track|ctx pid track ssrc
              |ctx pid track|ctx pid track|ctx ri|ctx ri];
    unfold_M; simpl.
  - destruct (notifier w) eqn:Hn; simpl; intros [= <- <-]; simpl;
      (split; [by apply footprint_none | done]).
  - destruct (notifier w) eqn:Hn; simpl; intros [= <- <-]; simpl;
      (split; [by apply footprint_none | done]).
  - destruct (notifier w) eqn:Hn; simpl; intros [= <- <-]; simpl;
      (split; [by eapply footprint_join | done]).
  - destruct (workers w !! Participant_Sid p) as [a|] eqn:Hp; simpl.
    + destruct (heap w !! a) as [sw|] eqn:Ha; simpl; [|done].
      destruct (notifier w) eqn:Hn; simpl; intros [= <- <-]; simpl;
        (split; [by eapply footprint_leave | done]).
    + destruct (notifier w) eqn:Hn; simpl; intros [= <- <-]; simpl;
        (split; [by apply footprint_none | done]).
  - destruct (workers w !! pid) as [a|] eqn:Hp; simpl.
    + destruct (heap w !! a) as [sw|] eqn:Ha; simpl; [|done].
      intros [= <- <-]; simpl. split; [by apply footprint_none | done].
    + intros [= <- <-]; simpl. split; [by apply footprint_none | done].
  - destruct (workers w !! pid) as [a|] eqn:Hp; simpl.
    + destruct (heap w !! a) as [sw|] eqn:Ha; simpl; rewrite ?Ha; simpl; [|done].
      rewrite list_lookup_insert_eq by (by eapply lookup_lt_Some). simpl.
      intros [= <- <-]; simpl. split; [by eapply footprint_unpublish | done].
    + intros [= <- <-]; simpl. split; [by apply footprint_none | done].
  - destruct (workers w !! pid) as [a|] eqn:Hp; simpl.
    + destruct (heap w !! a) as [sw|] eqn:Ha; simpl; [|done].
      intros [= <- <-]; simpl. split; [by apply footprint_none | done].
    + intros [= <- <-]; simpl. split; [by apply footprint_none | done].
  - destruct (workers w !! pid) as [a|] eqn:Hp; simpl.
    + destruct (heap w !! a) as [sw|] eqn:Ha; simpl; [|done].
      intros [= <- <-]; simpl. split; [by apply footprint_none | done].
    + intros [= <- <-]; simpl. split; [by apply footprint_none | done].
  - destruct (notifier w) eqn:Hn; simpl; intros [= <- <-]; simpl;
      (split; [by apply footprint_none | done]).
  - destruct (notifier w) eqn:Hn; simpl; intros [= <- <-]; simpl;
      (split; [by apply footprint_none | done]).
Qed.

Lemma dispatch_total c w :
  registry_wf w → ∃ w' log, dispatch c w = Ok tt w' log.
Proof.
  intros Hwf.
  assert (Hd : ∀ p, match workers w !! p with
                    | Some a => is_Some (heap w !! a)
                    | None => True
                    end).
  { intros p. destruct (workers w !! p) as [a|] eqn:Hp; [|done].
    destruct (wf_allocated w p a Hwf Hp) as (sw & -> & _). eauto. }
  destruct c as [ctx room|ctx room|ctx room p ci|ctx room p|ctx pid track|ctx pid track ssrc
              |ctx pid track|ctx pid track|ctx ri|ctx ri];
    unfold_M; simpl;
    try (destruct (notifier w); simpl; eauto; fail).
  - specialize (Hd (Participant_Sid p)).
    destruct (workers w !! Participant_Sid p) as [a|]; simpl.
    + destruct Hd as [sw ->]. simpl. destruct (notifier w); simpl; eauto.
    + destruct (notifier w); simpl; eauto.
  - specialize (Hd pid).
    destruct (workers w !! pid) as [a|]; simpl; eauto.
    destruct Hd as [sw ->]. simpl. eauto.
  - specialize (Hd pid).
    destruct (workers w !! pid) as [a|]; simpl; eauto.
    destruct Hd as [sw Ha]. rewrite Ha. simpl. rewrite Ha. simpl.
    rewrite list_lookup_insert_eq by (by eapply lookup_lt_Some). simpl. eauto.
  - specialize (Hd pid).
    destruct (workers w !! pid) as [a|]; simpl; eauto.
    destruct Hd as [sw ->]. simpl. eauto.
  - specialize (Hd pid).
    destruct (workers w !! pid) as [a|]; simpl; eauto.
    destruct Hd as [sw ->]. simpl. eauto.
Qed.

Lemma dispatch_preserves_wf c w w' log :
  registry_wf w → dispatch c w = Ok tt w' log → registry_wf w'.
Proof.
  intros Hwf Hrun. apply dispatch_footprint in Hrun as [Hfp _].
  destruct Hfp as [Hw Hh _ _ | ctx room p ci _ Hw Hh _ _
                  | ctx room p a sw _ Hp Ha Hw Hh _ _
                  | ctx pid track ssrc a sw _ Hp Ha Hw Hh _ _];
    unfold registry_wf; rewrite Hw, Hh.
  - exact Hwf.
  - intros q b Hq. apply lookup_insert_Some in Hq as [[<- <-] | [Hne Hq]].
    + split; [by rewrite lookup_new_worker|].
      intros q' b' Hq' ->. apply lookup_insert_Some in Hq' as [[? _] | [_ Hq']]; [done|].
      destruct (wf_allocated w q' _ Hwf Hq') as (sw' & Hsw' & _).
      apply lookup_lt_Some in Hsw'. lia.
    + destruct (wf_allocated w q b Hwf Hq) as (sw' & Hsw' & Hc).
      split.
      { rewrite lookup_app_l by (by eapply lookup_lt_Some).
        rewrite Hsw'. simpl. by f_equal. }
      intros q' b' Hq' ->. apply lookup_insert_Some in Hq' as [[_ Hb] | [_ Hq']].
      * apply lookup_lt_Some in Hsw'. lia.
      * by eapply wf_injective.
  - intros q b Hq. apply lookup_delete_Some in Hq as [Hne Hq].
    destruct (wf_allocated w q b Hwf Hq) as (sw' & Hsw' & Hc).
    assert (a ≠ b) by (intros ->; apply Hne; by eapply wf_injective).
    split.
    { rewrite list_lookup_insert_ne by done. rewrite Hsw'. simpl. by f_equal. }
    intros q' b' Hq' ->. apply lookup_delete_Some in Hq' as [_ Hq'].
    by eapply wf_injective.
  - intros q b Hq. destruct (wf_allocated w q b Hwf Hq) as (sw' & Hsw' & Hc).
    split; [|intros q' b' Hq' ->; by eapply wf_injective].
    destruct (decide (a = b)) as [<-|Hne].
    + rewrite list_lookup_insert_eq by (by eapply lookup_lt_Some). simpl.
      f_equal. congruence.
    + rewrite list_lookup_insert_ne by done. rewrite Hsw'. simpl. by f_equal.
Qed.

(** ** Runs *)

Lemma bind_Ok_inv {A B} (m : M A) (f : A → M B) w b w2 log :
  (m ≫= f) w = Ok b w2 log →
  ∃ a w1 l1 l2, m w = Ok a w1 l1 ∧ f a w1 = Ok b w2 l2 ∧ log = l1 ++ l2.
Proof.
  unfold mbind, M_bind. destruct (m w) as [a w1 l1|]; [|done].
  destruct (f a w1) as [b' w2' l2|] eqn:Hf; [|done].
  intros [= <- <- <-]. by exists a, w1, l1, l2.
Qed.

Lemma bind_Ok {A B} (m : M A) (f : A → M B) w a w1 l1 b w2 l2 :
  m w = Ok a w1 l1 → f a w1 = Ok b w2 l2 → (m ≫= f) w = Ok b w2 (l1 ++ l2).
Proof. intros Hm Hf. unfold mbind, M_bind. by rewrite Hm, Hf. Qed.

Lemma run_cons_inv c cs w w2 log :
  run (c :: cs) w = Ok tt w2 log →
  ∃ w1 l1 l2, dispatch c w = Ok tt w1 l1 ∧ run cs w1 = Ok tt w2 l2 ∧ log = l1 ++ l2.
Proof.
  simpl. intros H. apply bind_Ok_inv in H as ([] & w1 & l1 & l2 & ? & ? & ?). eauto 6.
Qed.

Lemma run_total cs w :
  registry_wf w → ∃ w' log, run cs w = Ok tt w' log ∧ registry_wf w'.
Proof.
  revert w. induction cs as [|c cs IH]; intros w Hwf.
  - by exists w, [].
  - destruct (dispatch_total c w Hwf) as (w1 & l1 & H1).
    destruct (IH w1) as (w2 & l2 & H2 & Hwf2); [by eapply dispatch_preserves_wf|].
    exists w2, (l1 ++ l2). split; [|done]. simpl. by eapply bind_Ok.
Qed.

Lemma closes_app l1 l2 : closes (l1 ++ l2) = closes l1 ++ closes l2.
Proof. unfold closes. apply omap_app. Qed.

Lemma releases_app l1 l2 : releases (l1 ++ l2) = releases l1 ++ releases l2.
Proof. unfold releases. apply omap_app. Qed.

(** ** Workers that have lost their place in the registry *)

(** A worker that has lost its place is out of reach: no call closes it,
    releases one of its handles or changes it, and no call puts it back into
    the registry. *)
Lemma dispatch_unreachable c w w' log a :
  unreachable a w → dispatch c w = Ok tt w' log →
  unreachable a w' ∧ heap w' !! a = heap w !! a
  ∧ (a ∉ closes log) ∧ (a ∉ fst <$> releases log).
Proof.
  intros [Hlt Hun] Hrun. apply dispatch_footprint in Hrun as [Hfp _].
  destruct Hfp as [Hw Hh Hc Hr | ctx room p ci _ Hw Hh Hc Hr
                  | ctx room p b sw _ Hp Hb Hw Hh Hc Hr
                  | ctx pid track ssrc b sw _ Hp Hb Hw Hh Hc Hr];
    unfold unreachable; rewrite Hw, Hh, Hc, Hr.
  - repeat split; try done; notin.
  - rewrite length_app. simpl. repeat split; try lia; try notin.
    + intros q Hq. apply lookup_insert_Some in Hq as [[_ ?] | [_ Hq]]; [lia|].
      by apply (Hun q).
    + by rewrite lookup_app_l.
  - assert (b ≠ a) by (intros ->; by apply (Hun (Participant_Sid p))).
    rewrite length_insert. repeat split; try done; try notin.
    + intros q Hq. apply lookup_delete_Some in Hq as [_ Hq]. by apply (Hun q).
    + by rewrite list_lookup_insert_ne.
  - assert (b ≠ a) by (intros ->; by apply (Hun pid)).
    rewrite length_insert. repeat split; try done; try notin.
    by rewrite list_lookup_insert_ne.
Qed.

Lemma run_unreachable cs w w' log a :
  unreachable a w → run cs w = Ok tt w' log →
  unreachable a w' ∧ heap w' !! a = heap w !! a
  ∧ (a ∉ closes log) ∧ (a ∉ fst <$> releases log).
Proof.
  revert w log. induction cs as [|c cs IH]; intros w log Hun Hrun.
  - injection Hrun as <- <-. repeat split; try apply Hun; notin.
  - apply run_cons_inv in Hrun as (w1 & l1 & l2 & H1 & H2 & ->).
    destruct (dispatch_unreachable _ _ _ _ _ Hun H1) as (Hun1 & Hh1 & Hc1 & Hr1).
    destruct (IH _ _ Hun1 H2) as (Hun2 & Hh2 & Hc2 & Hr2).
    rewrite closes_app, releases_app, fmap_app.
    repeat split; try apply Hun2; try congruence; by apply not_elem_of_app.
Qed.

(** A registered worker stays open as long as its participant does not
    leave: no other call closes it. *)
Lemma dispatch_held_by c w w' log sid a :
  is_leave_of sid c = false →
  held_by sid a w → dispatch c w = Ok tt w' log →
  held_by sid a w' ∧ a ∉ closes log.
Proof.
  intros Hc (Hlt & Hopen & Hown) Hrun. apply dispatch_footprint in Hrun as [Hfp _].
  destruct Hfp as [Hw Hh Hcl _ | ctx room p ci _ Hw Hh Hcl _
                  | ctx room p b sw -> Hp Hb Hw Hh Hcl _
                  | ctx pid track ssrc b sw _ Hp Hb Hw Hh Hcl _];
    unfold held_by; rewrite Hw, Hh, Hcl.
  - repeat split; try done; notin.
  - rewrite length_app, lookup_app_l by done. simpl.
    repeat split; try done; try lia; try notin.
    intros q Hq. apply lookup_insert_Some in Hq as [[_ ?] | [_ Hq]]; [lia|]. by apply Hown.
  - simpl in Hc. apply bool_decide_eq_false in Hc.
    assert (b ≠ a) by (intros ->; apply Hc; by apply Hown).
    rewrite length_insert, list_lookup_insert_ne by done.
    repeat split; try done; try notin.
    intros q Hq. apply lookup_delete_Some in Hq as [_ Hq]. by apply Hown.
  - rewrite length_insert. repeat split; try done; try notin.
    destruct (decide (b = a)) as [->|Hne].
    + rewrite list_lookup_insert_eq by done. rewrite Hb in Hopen. simpl in *. done.
    + by rewrite list_lookup_insert_ne.
Qed.

Lemma run_held_by cs w w' log sid a :
  Forall (λ c, is_leave_of sid c = false) cs →
  held_by sid a w → run cs w = Ok tt w' log →
  held_by sid a w' ∧ a ∉ closes log.
Proof.
  intros Hcs. revert w log. induction Hcs as [|c cs Hc _ IH]; intros w log Hheld Hrun.
  - injection Hrun as <- <-. split; [done | notin].
  - apply run_cons_inv in Hrun as (w1 & l1 & l2 & H1 & H2 & ->).
    destruct (dispatch_held_by _ _ _ _ _ _ Hc Hheld H1) as [Hheld1 Hc1].
    destruct (IH _ _ Hheld1 H2) as [Hheld2 Hc2].
    rewrite closes_app. split; [done | by apply not_elem_of_app].
Qed.

(** ** A second join for the same identity *)

Lemma ParticipantJoined_exec ctx room p ci w :
  ∃ w' log,
    ParticipantJoined ctx room p ci w = Ok tt w' log
    ∧ workers w' = <[Participant_Sid p := length (heap w)]> (workers w)
    ∧ heap w' = heap w ++ [fresh_worker (Room_Sid room) (Room_Name room) (Participant_Sid p)]
    ∧ closes log = [] ∧ releases log = [].
Proof.
  unfold_M. simpl. destruct (notifier w); simpl; do 2 eexists; (split; [reflexivity|]); done.
Qed.

Lemma handles_moved_wf w w' : registry_wf w → handles_moved w w' → registry_wf w'.
Proof.
  intros Hwf (Hw & _ & Hh) p a Hp. rewrite Hw in *.
  destruct (wf_allocated w p a Hwf Hp) as (sw & Ha & Hc).
  destruct (Forall2_lookup_l _ _ _ _ _ Hh Ha) as (sw' & -> & _ & _ & _ & Hc').
  split; [simpl; congruence|].
  intros q b Hq ->. by eapply wf_injective.
Qed.

Lemma handles_moved_held_by sid a w w' :
  held_by sid a w → handles_moved w w' → held_by sid a w'.
Proof.
  intros (Hlt & Hopen & Hown) (Hw & _ & Hh). unfold held_by. rewrite Hw.
  rewrite <- (Forall2_length _ _ _ Hh). split; [done|]. split; [|done].
  destruct (heap w !! a) as [sw|] eqn:Ha; [|done].
  destruct (Forall2_lookup_l _ _ _ _ _ Hh Ha) as (sw' & -> & _ & _ & _ & Hc').
  simpl in *. congruence.
Qed.

(** C10. [ParticipantJoined] runs for an identity; calls other than a
    [ParticipantLeft] for that identity follow, and code outside this file
    may open handles on the workers; then [ParticipantJoined] runs for the
    same identity again.  The second join stores a newly created worker under
    the identity, and the worker created by the first join is left without a
    registry entry.  [Close] is never called on that worker, neither up to
    the second join nor by any later call, and from the second join on
    nothing releases its handles: it stays open, with the handles it had
    when it lost its place. *)
Theorem displaced_worker_never_closed
    ctx1 room1 p ci1 (between : list Call) ctx2 room2 ident2 ci2 (later : list Call) w :
  let sid := Participant_Sid p in
  let p2 := {| Participant_Sid := sid; Participant_Identity := ident2 |} in
  let a1 := length (heap w) in
  registry_wf w →
  Forall (λ c, is_leave_of sid c = false) between →
  ∃ w1 l1 w2 l2,
    ParticipantJoined ctx1 room1 p ci1 w = Ok tt w1 l1
    ∧ run between w1 = Ok tt w2 l2
    ∧ workers w1 !! sid = Some a1
    ∧ (a1 ∉ closes (l1 ++ l2))
    ∧ ∀ w2', handles_moved w2 w2' →
        ∃ w3 l3 w4 l4 sw,
          ParticipantJoined ctx2 room2 p2 ci2 w2' = Ok tt w3 l3
          ∧ run later w3 = Ok tt w4 l4
          ∧ workers w3 !! sid = Some (length (heap w2'))
          ∧ length (heap w2') ≠ a1
          ∧ heap w3 !! length (heap w2')
            = Some (fresh_worker (Room_Sid room2) (Room_Name room2) sid)
          ∧ unreachable a1 w3 ∧ unreachable a1 w4
          ∧ (a1 ∉ closes (l3 ++ l4))
          ∧ (a1 ∉ fst <$> releases (l3 ++ l4))
          ∧ heap w2' !! a1 = Some sw ∧ closed sw = false
          ∧ heap w3 !! a1 = Some sw ∧ heap w4 !! a1 = Some sw.
Proof.
  intros sid p2 a1 Hwf Hbetween. subst a1. set (a1 := length (heap w)).
  destruct (ParticipantJoined_exec ctx1 room1 p ci1 w)
    as (w1 & l1 & H1 & Hw1 & Hh1 & Hc1 & _).
  assert (Hwf1 : registry_wf w1)
    by exact (dispatch_preserves_wf (CallParticipantJoined ctx1 room1 p ci1) _ _ _ Hwf H1).
  assert (Hheld1 : held_by sid a1 w1).
  { unfold held_by, a1. rewrite Hw1, Hh1, length_app, lookup_new_worker. simpl.
    repeat split; [lia|].
    intros q Hq. apply lookup_insert_Some in Hq as [[<- _] | [_ Hq]]; [done|].
    destruct (wf_allocated w q _ Hwf Hq) as (sw' & Hsw' & _).
    apply lookup_lt_Some in Hsw'. lia. }
  destruct (run_total between w1 Hwf1) as (w2 & l2 & H2 & Hwf2).
  destruct (run_held_by _ _ _ _ _ _ Hbetween Hheld1 H2) as [Hheld2 Hc2].
  exists w1, l1, w2, l2. split; [done|]. split; [done|].
  split; [rewrite Hw1; apply lookup_insert_eq|].
  split; [by rewrite closes_app, Hc1|].
  intros w2' Hmoved.
  assert (Hwf2' : registry_wf w2') by (by eapply handles_moved_wf).
  destruct (handles_moved_held_by _ _ _ _ Hheld2 Hmoved) as (Hlt2 & Hopen2 & Hown2).
  destruct (heap w2' !! a1) as [sw|] eqn:Hsw; [|done].
  destruct (ParticipantJoined_exec ctx2 room2 p2 ci2 w2')
    as (w3 & l3 & H3 & Hw3 & Hh3 & Hc3 & Hr3).
  assert (Hwf3 : registry_wf w3)
    by exact (dispatch_preserves_wf (CallParticipantJoined ctx2 room2 p2 ci2) _ _ _ Hwf2' H3).
  assert (Hun3 : unreachable a1 w3).
  { unfold unreachable. rewrite Hw3, Hh3, length_app. simpl. split; [lia|].
    intros q Hq. apply lookup_insert_Some in Hq as [[_ ?] | [Hne Hq]]; [lia|].
    apply Hne. symmetry. by apply Hown2. }
  destruct (run_total later w3 Hwf3) as (w4 & l4 & H4 & _).
  destruct (run_unreachable _ _ _ _ _ Hun3 H4) as (Hun4 & Hh4 & Hc4 & Hr4).
  assert (Hsw3 : heap w3 !! a1 = Some sw) by (by rewrite Hh3, lookup_app_l).
  exists w3, l3, w4, l4, sw.
  repeat split; try done.
  - rewrite Hw3. apply lookup_insert_eq.
  - lia.
  - rewrite Hh3. apply lookup_new_worker.
  - apply Hun3.
  - apply Hun3.
  - apply Hun4.
  - apply Hun4.
  - rewrite closes_app, Hc3. done.
  - rewrite releases_app, Hr3. done.
  - simpl in Hopen2. congruence.
  - by rewrite Hh4.
Qed.

(** ** Unpublishing a track *)


(** ** The fan-out of every entry point *)

(** C1, as the code has it.  Every entry point finishes, and its calls into
    the sinks are, in this order: the metrics call of the transition, if it
    has one (the two recording entry points have none); the submissions to
    the delivery pool; one analytics hand-off.  There is one submission,
    carrying the webhook event of the transition, when a notifier is
    configured and the transition has a webhook event (the four track entry
    points have none), and no submission otherwise. *)
Theorem fan_out_by_kind c w :
  registry_wf w →
  ∃ w' log ctx ev,
    dispatch c w = Ok tt w' log
    ∧ sinks log = (EMetric <$> option_list (relevant_metric c))
                  ++ (ESubmit <$> submissions log) ++ [ESendEvent ctx ev]
    ∧ (we_Event ∘ task_event) <$> submissions log
      = match notifier w with
        | Some _ => option_list (webhook_event_name c)
        | None => []
        end.
Proof.
  intros Hwf. run_call c w Hwf; destruct (notifier w) eqn:Hn; simpl;
    do 4 eexists; (split; [reflexivity|]); simpl; done.
Qed.


(** C6. Without a notifier every entry point finishes, submits nothing to
    the delivery pool and neither delivers nor logs; its calls into the sinks
    are the metrics call of the transition, if it has one, and one analytics
    hand-off.  The same call with a notifier in place makes the same metrics
    calls, hands over the same analytics events up to the clock reading they
    carry, and leaves the registry and the workers in the same state. *)
Theorem quiet_without_notifier c w :
  registry_wf w → notifier w = None →
  ∃ w' log ctx ev,
    dispatch c w = Ok tt w' log
    ∧ submissions log = []
    ∧ List.filter is_delivery log = []
    ∧ sinks log = (EMetric <$> option_list (relevant_metric c)) ++ [ESendEvent ctx ev]
    ∧ ∀ n, ∃ w'' log',
        dispatch c (set_notifier (Some n) w) = Ok tt w'' log'
        ∧ metrics log' = metrics log
        ∧ erase_timestamp <$> analytics_events log'
          = erase_timestamp <$> analytics_events log
        ∧ workers w'' = workers w' ∧ heap w'' = heap w'.
Proof.
  intros Hwf Hn. run_call c w Hwf; rewrite ?Hn; simpl;
    do 4 eexists; (split; [reflexivity|]); simpl;
    (split; [reflexivity|]); (split; [reflexivity|]); (split; [reflexivity|]);
    intros n; rewrite ?Hp; simpl; rewrite ?Ha; simpl; rewrite ?Ha; simpl;
    rewrite ?list_lookup_insert_eq by (by eapply lookup_lt_Some); simpl;
    do 2 eexists; (split; [reflexivity|]); done.
Qed.

(** ** Webhook events *)

(** Every call submits at most one task, exactly when a notifier is
    configured and the transition has a webhook event; a submitted event
    carries the id and the time drawn when the call began, and the call has
    then used up one id. *)
Lemma dispatch_submissions c w w' log :
  dispatch c w = Ok tt w' log →
  guids w' = guids w ∧ notifier w' = notifier w
  ∧ (we_Event ∘ task_event) <$> submissions log
    = match notifier w with
      | Some _ => option_list (webhook_event_name c)
      | None => []
      end
  ∧ ((submissions log = [] ∧ guid_calls w' = guid_calls w)
     ∨ (∃ t, submissions log = [t] ∧ stamped_in w t
             ∧ guid_calls w' = S (guid_calls w))).
Proof.
  destruct c; unfold_M; simpl;
    try (destruct (workers w !! _) as [a|]; simpl;
         [destruct (heap w !! a) as [sw|] eqn:Ha; simpl; rewrite ?Ha; simpl; [|done];
          rewrite ?list_lookup_insert_eq by (by eapply lookup_lt_Some); simpl|]);
    destruct (notifier w) eqn:Hn; simpl; intros [= <- <-]; simpl;
    (split; [done|]); (split; [done|]); (split; [reflexivity|]);
    first [ by left | right; eexists; by repeat split ].
Qed.


Lemma sample_guids_fresh i j : i ≠ j → guids sample_world i ≠ guids sample_world j.
Proof. simpl. intros Hne Heq. by apply Hne, (inj pretty). Qed.



(** ** The sequence of the specification does not hold for every entry point *)

(** C1, as the specification words it, fails: with a notifier configured
    [TrackPublished] submits nothing to the delivery pool, and
    [RecordingStarted] makes no metrics call. *)
Lemma fans_out_in_full_fails :
  notifier sample_world ≠ None
  ∧ ¬ fans_out_in_full (CallTrackPublished 0%nat "P1" sample_track) sample_world
  ∧ ¬ fans_out_in_full (CallRecordingStarted 0%nat sample_recording) sample_world.
Proof.
  split; [done|]. split.
  - intros (w' & log & m & ctx & ev & Hrun & _ & Hlen).
    vm_compute in Hrun. injection Hrun as <- <-. vm_compute in Hlen. discriminate.
  - intros (w' & log & m & ctx & ev & Hrun & Hs & _).
    vm_compute in Hrun. injection Hrun as <- <-. vm_compute in Hs. discriminate.
Qed.

(** ** Instances *)

Lemma fan_out_by_kind_witness :
  let c := CallParticipantLeft 0%nat sample_room sample_participant in
  ∃ w' log ctx ev,
    dispatch c sample_world_joined = Ok tt w' log
    ∧ sinks log = (EMetric <$> option_list (relevant_metric c))
                  ++ (ESubmit <$> submissions log) ++ [ESendEvent ctx ev]
    ∧ (we_Event ∘ task_event) <$> submissions log
      = match notifier sample_world_joined with
        | Some _ => option_list (webhook_event_name c)
        | None => []
        end.
Proof.
  apply (fan_out_by_kind (CallParticipantLeft 0%nat sample_room sample_participant)
           sample_world_joined).
  apply (bool_decide_unpack _). vm_compute. exact I.
Defined.


Lemma quiet_without_notifier_witness :
  let c := CallParticipantJoined 0%nat sample_room sample_participant None in
  ∃ w' log ctx ev,
    dispatch c sample_world_quiet = Ok tt w' log
    ∧ submissions log = []
    ∧ List.filter is_delivery log = []
    ∧ sinks log = (EMetric <$> option_list (relevant_metric c)) ++ [ESendEvent ctx ev]
    ∧ ∀ n, ∃ w'' log',
        dispatch c (set_notifier (Some n) sample_world_quiet) = Ok tt w'' log'
        ∧ metrics log' = metrics log
        ∧ erase_timestamp <$> analytics_events log'
          = erase_timestamp <$> analytics_events log
        ∧ workers w'' = workers w' ∧ heap w'' = heap w'.
Proof.
  apply (quiet_without_notifier
           (CallParticipantJoined 0%nat sample_room sample_participant None)
           sample_world_quiet).
  - apply (bool_decide_unpack _). vm_compute. exact I.
  - reflexivity.
Defined.


Lemma open_handle_moved ssrc w : handles_moved w (open_handle ssrc w).
Proof.
  repeat split. simpl. apply Forall2_fmap_r, Forall_Forall2_diag, Forall_forall.
  intros sw _. by repeat split.
Qed.

Lemma displaced_worker_never_closed_witness :
  let between := [CallTrackPublished 0%nat "P1" sample_track] in
  let later := [CallParticipantLeft 0%nat sample_room sample_participant;
                CallTrackUnpublished 0%nat "P1" sample_track 7] in
  let sid := Participant_Sid sample_participant in
  let p2 := {| Participant_Sid := sid; Participant_Identity := "alice again" |} in
  let a1 := length (heap sample_world) in
  ∃ w1 l1 w2 l2,
    ParticipantJoined 0%nat sample_room sample_participant None sample_world = Ok tt w1 l1
    ∧ run between w1 = Ok tt w2 l2
    ∧ workers w1 !! sid = Some a1
    ∧ (a1 ∉ closes (l1 ++ l2))
    ∧ ∃ w3 l3 w4 l4 sw,
        ParticipantJoined 1%nat sample_room p2 None (open_handle 7 w2) = Ok tt w3 l3
        ∧ run later w3 = Ok tt w4 l4
        ∧ workers w3 !! sid = Some (length (heap (open_handle 7 w2)))
        ∧ length (heap (open_handle 7 w2)) ≠ a1
        ∧ heap w3 !! length (heap (open_handle 7 w2))
          = Some (fresh_worker (Room_Sid sample_room) (Room_Name sample_room) sid)
        ∧ unreachable a1 w3 ∧ unreachable a1 w4
        ∧ (a1 ∉ closes (l3 ++ l4))
        ∧ (a1 ∉ fst <$> releases (l3 ++ l4))
        ∧ heap (open_handle 7 w2) !! a1 = Some sw ∧ closed sw = false
        ∧ heap w3 !! a1 = Some sw ∧ heap w4 !! a1 = Some sw.
Proof.
  destruct (displaced_worker_never_closed 0%nat sample_room sample_participant None
              [CallTrackPublished 0%nat "P1" sample_track]
              1%nat sample_room "alice again" None
              [CallParticipantLeft 0%nat sample_room sample_participant;
               CallTrackUnpublished 0%nat "P1" sample_track 7]
              sample_world)
    as (w1 & l1 & w2 & l2 & H1 & H2 & Hw1 & Hc & Hsecond).
  - apply (bool_decide_unpack _). vm_compute. exact I.
  - repeat constructor.
  - exists w1, l1, w2, l2. repeat split; try done.
    apply Hsecond, open_handle_moved.
Defined.

(** * Further properties of the entry points *)

(** ** The registry invariant over runs *)

(** X1. From a service that has registered nobody, every sequence of calls
    of the entry points finishes: no call reads through a pointer that holds
    no worker.  Afterwards every registered identity maps to a worker that
    has not been closed, and no two identities share a worker. *)
Theorem runs_keep_registry_wf cs w :
  workers w = ∅ →
  ∃ w' log, run cs w = Ok tt w' log ∧ registry_wf w'.
Proof. intros Hw. by apply run_total, registry_wf_empty. Qed.

Lemma runs_keep_registry_wf_witness :
  ∃ w' log,
    run [CallParticipantJoined 0%nat sample_room sample_participant None;
         CallTrackUnpublished 0%nat "P1" sample_track 7;
         CallParticipantLeft 0%nat sample_room sample_participant;
         CallParticipantLeft 0%nat sample_room sample_participant] sample_world
    = Ok tt w' log
    ∧ registry_wf w'.
Proof. apply runs_keep_registry_wf. reflexivity. Defined.

(** ** Lock discipline *)

Lemma lock_run_app st l1 l2 :
  lock_run st (l1 ++ l2) = lock_run st l1 ≫= λ st', lock_run st' l2.
Proof.
  revert st. induction l1 as [|e l1 IH]; intros st; simpl; [done|].
  destruct (lock_step st e); simpl; [apply IH | done].
Qed.

Lemma dispatch_locks c w w' log :
  registry_wf w → dispatch c w = Ok tt w' log →
  lock_run Unlocked log = Some Unlocked.
Proof.
  intros Hwf. run_call c w Hwf; destruct (notifier w); simpl;
    intros [= <- <-]; reflexivity.
Qed.

(** X2. Over any sequence of calls from a well-formed service the lock is
    taken and released in pairs and never while it is held; the workers map
    is read only under the lock and written only under the exclusive lock,
    which is also where workers are created and closed; the metrics, the
    delivery pool, the analytics client and [RemoveBuffer] are called only
    while the lock is free.  The lock is free when the run ends. *)
Theorem runs_respect_lock cs w :
  registry_wf w →
  ∃ w' log, run cs w = Ok tt w' log ∧ lock_run Unlocked log = Some Unlocked.
Proof.
  revert w. induction cs as [|c cs IH]; intros w Hwf.
  - by exists w, [].
  - destruct (dispatch_total c w Hwf) as (w1 & l1 & H1).
    destruct (IH w1) as (w2 & l2 & H2 & Hl2); [by eapply dispatch_preserves_wf|].
    exists w2, (l1 ++ l2). split; [simpl; by eapply bind_Ok|].
    rewrite lock_run_app, (dispatch_locks _ _ _ _ Hwf H1). done.
Qed.

Lemma runs_respect_lock_witness :
  ∃ w' log,
    run [CallTrackUnpublished 0%nat "P1" sample_track 7;
         CallParticipantLeft 0%nat sample_room sample_participant;
         CallRoomEnded 0%nat sample_room] sample_world_joined
    = Ok tt w' log
    ∧ lock_run Unlocked log = Some Unlocked.
Proof.
  apply runs_respect_lock. apply (bool_decide_unpack _). vm_compute. exact I.
Defined.

(** ** Who is registered *)

(** The workers map after a call, from the map before it. *)
Lemma dispatch_registry c w w' log :
  dispatch c w = Ok tt w' log →
  workers w' = match c with
               | CallParticipantJoined _ _ p _ =>
                   <[Participant_Sid p := length (heap w)]> (workers w)
               | CallParticipantLeft _ _ p => delete (Participant_Sid p) (workers w)
               | _ => workers w
               end.
Proof.
  intros Hrun. destruct (dispatch_footprint _ _ _ _ Hrun) as [Hfp _].
  destruct c as [ctx room|ctx room|ctx room p ci|ctx room p|ctx pid track
                |ctx pid track ssrc|ctx pid track|ctx pid track|ctx ri|ctx ri];
    try (destruct Hfp; (done || discriminate)).
  - destruct (ParticipantJoined_exec ctx room p ci w) as (w1 & l1 & H1 & Hw1 & _).
    simpl in Hrun. rewrite H1 in Hrun. by injection Hrun as <- _.
  - destruct Hfp as [Hw _ _ _ | ? ? ? ? [=] | ? ? ? ? ? [= <- <- <-] _ _ Hw _ _ _
                    | ? ? ? ? ? ? [=]]; [|done].
    rewrite Hw. symmetry. apply delete_id.
    destruct (workers w !! Participant_Sid p) as [a|] eqn:Hp; [|done].
    exfalso. revert Hrun. unfold_M. simpl. rewrite Hp. simpl.
    destruct (heap w !! a); simpl; [|done].
    destruct (notifier w); simpl; intros [= Hw' _]; subst w'; simpl in Hw;
      apply (f_equal (λ m, m !! Participant_Sid p)) in Hw;
      rewrite lookup_delete_eq, Hp in Hw; done.
Qed.

(** X3. The registry entry of an identity changes only through a
    [ParticipantJoined] or a [ParticipantLeft] for that identity: over any
    sequence of other calls, also joins and leaves of other participants,
    the identity keeps the worker it had, or stays absent. *)
Theorem registry_entry_frame q cs w :
  registry_wf w →
  Forall (λ c, is_join_or_leave_of q c = false) cs →
  ∃ w' log, run cs w = Ok tt w' log ∧ workers w' !! q = workers w !! q.
Proof.
  intros Hwf Hcs. revert w Hwf. induction Hcs as [|c cs Hc _ IH]; intros w Hwf.
  - by exists w, [].
  - destruct (dispatch_total c w Hwf) as (w1 & l1 & H1).
    destruct (IH w1) as (w2 & l2 & H2 & Hq); [by eapply dispatch_preserves_wf|].
    exists w2, (l1 ++ l2). split; [simpl; by eapply bind_Ok|].
    rewrite Hq, (dispatch_registry _ _ _ _ H1).
    destruct c; try done; simpl in Hc; apply bool_decide_eq_false in Hc.
    + by rewrite lookup_insert_ne.
    + by rewrite lookup_delete_ne.
Qed.

Lemma registry_entry_frame_witness :
  ∃ w' log,
    run [CallParticipantJoined 0%nat sample_room
           {| Participant_Sid := "P2"; Participant_Identity := "bob" |} None;
         CallTrackUnpublished 0%nat "P1" sample_track 7;
         CallParticipantLeft 0%nat sample_room
           {| Participant_Sid := "P2"; Participant_Identity := "bob" |}]
        sample_world_joined
    = Ok tt w' log
    ∧ workers w' !! "P1" = workers sample_world_joined !! "P1".
Proof.
  apply registry_entry_frame.
  - apply (bool_decide_unpack _). vm_compute. exact I.
  - repeat constructor.
Defined.

(** X4. After any sequence of calls the registered identities are those
    registered before, plus the identities that joined, minus those that
    left, taken in the order of the calls: an identity is registered exactly
    when its last join or leave was a join, or when it had neither and was
    registered before. *)
Theorem registered_identities cs w :
  registry_wf w →
  ∃ w' log,
    run cs w = Ok tt w' log
    ∧ dom (workers w') = registered_after cs (dom (workers w)).
Proof.
  revert w. induction cs as [|c cs IH]; intros w Hwf.
  - by exists w, [].
  - destruct (dispatch_total c w Hwf) as (w1 & l1 & H1).
    destruct (IH w1) as (w2 & l2 & H2 & Hd); [by eapply dispatch_preserves_wf|].
    exists w2, (l1 ++ l2). split; [simpl; by eapply bind_Ok|].
    rewrite Hd, (dispatch_registry _ _ _ _ H1).
    destruct c; simpl; try done.
    + by rewrite dom_insert_L.
    + by rewrite dom_delete_L.
Qed.

Lemma registered_identities_witness :
  let cs := [CallParticipantLeft 0%nat sample_room sample_participant;
             CallParticipantJoined 0%nat sample_room
               {| Participant_Sid := "P2"; Participant_Identity := "bob" |} None;
             CallParticipantLeft 0%nat sample_room sample_participant] in
  ∃ w' log,
    run cs sample_world_joined = Ok tt w' log
    ∧ dom (workers w') = registered_after cs (dom (workers sample_world_joined)).
Proof.
  apply registered_identities. apply (bool_decide_unpack _). vm_compute. exact I.
Defined.

(** ** The participant gauge and the registry *)

Lemma dispatch_metrics c w w' log :
  dispatch c w = Ok tt w' log → metrics log = option_list (relevant_metric c).
Proof.
  destruct c; unfold_M; simpl;
    try (destruct (workers w !! _) as [a|]; simpl;
         [destruct (heap w !! a) as [sw|] eqn:Ha; simpl; rewrite ?Ha; simpl; [|done];
          rewrite ?list_lookup_insert_eq by (by eapply lookup_lt_Some); simpl|]);
    destruct (notifier w); simpl; intros [= <- <-]; reflexivity.
Qed.

Lemma size_pos_of_lookup (m : gmap string nat) k a :
  m !! k = Some a → (0 < size m)%nat.
Proof.
  intros Hk. destruct (size m) eqn:Hs; [|lia].
  apply map_size_empty_inv in Hs. by rewrite Hs in Hk.
Qed.

(** X5. The participant gauge follows the calls, not the registry.  A call
    moves the gauge by as much as it changes the number of registered
    identities, except that [ParticipantJoined] for an identity that is
    already registered raises the gauge though the registry keeps its size,
    and [ParticipantLeft] for an identity that is not registered lowers the
    gauge though nobody is removed. *)
Theorem gauge_follows_calls c w :
  registry_wf w →
  ∃ w' log,
    dispatch c w = Ok tt w' log
    ∧ participants_delta (metrics log)
      = Z.of_nat (size (workers w')) - Z.of_nat (size (workers w)) + gauge_drift c w.
Proof.
  intros Hwf. destruct (dispatch_total c w Hwf) as (w' & log & Hrun).
  exists w', log. split; [done|].
  rewrite (dispatch_metrics _ _ _ _ Hrun), (dispatch_registry _ _ _ _ Hrun).
  destruct c as [ctx room|ctx room|ctx room p ci|ctx room p|ctx pid track
                |ctx pid track ssrc|ctx pid track|ctx pid track|ctx ri|ctx ri];
    simpl; try lia.
  - rewrite map_size_insert.
    destruct (workers w !! Participant_Sid p); simpl; lia.
  - rewrite map_size_delete.
    destruct (workers w !! Participant_Sid p) as [a|] eqn:Hp; simpl; [|lia].
    apply size_pos_of_lookup in Hp. lia.
Qed.

Lemma gauge_follows_calls_witness :
  let c := CallParticipantJoined 0%nat sample_room sample_participant None in
  ∃ w' log,
    dispatch c sample_world_joined = Ok tt w' log
    ∧ participants_delta (metrics log)
      = Z.of_nat (size (workers w')) - Z.of_nat (size (workers sample_world_joined))
        + gauge_drift c sample_world_joined.
Proof.
  apply (gauge_follows_calls
           (CallParticipantJoined 0%nat sample_room sample_participant None)
           sample_world_joined).
  apply (bool_decide_unpack _). vm_compute. exact I.
Defined.

(** ** Webhook ids over a run *)

Lemma submissions_app l1 l2 : submissions (l1 ++ l2) = submissions l1 ++ submissions l2.
Proof. unfold submissions. apply omap_app. Qed.

(** The ids of the events submitted over a run are the ids drawn from the
    generator, one after the other, from the first one not yet drawn. *)
Lemma run_ids cs w w' log :
  run cs w = Ok tt w' log →
  guids w' = guids w
  ∧ guid_calls w' = (guid_calls w + length (submissions log))%nat
  ∧ (we_Id ∘ task_event) <$> submissions log
    = (λ k, "EV_" +:+ guids w k) <$> seq (guid_calls w) (length (submissions log)).
Proof.
  revert w log. induction cs as [|c cs IH]; intros w log Hrun.
  - injection Hrun as <- <-. simpl. repeat split. lia.
  - apply run_cons_inv in Hrun as (w1 & l1 & l2 & H1 & H2 & ->).
    destruct (dispatch_submissions _ _ _ _ H1) as (Hg1 & _ & _ & Hsub).
    destruct (IH _ _ H2) as (Hg2 & Hn2 & Hids2).
    rewrite submissions_app, length_app, fmap_app, seq_app, fmap_app, Hids2, Hg1, Hn2.
    destruct Hsub as [[-> Hn1] | (t & -> & [Hid _] & Hn1)]; rewrite Hn1; simpl.
    + split; [congruence|]. split; [lia|]. by rewrite Nat.add_0_r.
    + split; [congruence|]. split; [lia|].
      rewrite Hid. f_equal. by rewrite Nat.add_1_r.
Qed.

(** X6. Over any sequence of calls, the service draws one id from the
    generator for each event it submits to the delivery pool and none
    besides; when the generator does not repeat itself, all the events
    submitted carry different ids. *)
Theorem run_ids_distinct cs w :
  registry_wf w →
  (∀ i j, i ≠ j → guids w i ≠ guids w j) →
  ∃ w' log,
    run cs w = Ok tt w' log
    ∧ guid_calls w' = (guid_calls w + length (submissions log))%nat
    ∧ NoDup ((we_Id ∘ task_event) <$> submissions log).
Proof.
  intros Hwf Hfresh. destruct (run_total cs w Hwf) as (w' & log & Hrun & _).
  exists w', log. split; [done|].
  destruct (run_ids _ _ _ _ Hrun) as (_ & Hn & ->). split; [done|].
  assert (Inj (=) (=) (λ k, "EV_" +:+ guids w k)).
  { intros i j Heq%(inj (String.append "EV_")).
    destruct (decide (i = j)) as [|Hne]; [done|]. by destruct (Hfresh i j Hne). }
  apply (NoDup_fmap_2 _), NoDup_seq.
Qed.

Lemma run_ids_distinct_witness :
  let cs := [CallRoomStarted 0%nat sample_room;
             CallParticipantJoined 0%nat sample_room sample_participant None;
             CallTrackPublished 0%nat "P1" sample_track;
             CallParticipantLeft 0%nat sample_room sample_participant] in
  ∃ w' log,
    run cs sample_world = Ok tt w' log
    ∧ guid_calls w' = (guid_calls sample_world + length (submissions log))%nat
    ∧ NoDup ((we_Id ∘ task_event) <$> submissions log).
Proof.
  apply run_ids_distinct.
  - apply (bool_decide_unpack _). vm_compute. exact I.
  - exact sample_guids_fresh.
Defined.

(** ** Closing workers *)

Lemma dispatch_closes c w w' log :
  registry_wf w → dispatch c w = Ok tt w' log →
  closes log = [] ∨ ∃ a, closes log = [a] ∧ unreachable a w'
                         ∧ closed <$> (heap w !! a) = Some false
                         ∧ closed <$> (heap w' !! a) = Some true.
Proof.
  intros Hwf Hrun. destruct (dispatch_footprint _ _ _ _ Hrun) as [Hfp _].
  destruct Hfp as [_ _ Hc _ | ? ? ? ? _ _ _ Hc _
                  | ctx room p a sw _ Hp Ha Hw Hh Hc _
                  | ? ? ? ? ? ? _ _ _ _ _ Hc _]; [by left..| |by left].
  right. exists a. split; [done|].
  pose proof (lookup_lt_Some _ _ _ Ha) as Hlt.
  destruct (wf_allocated w _ a Hwf Hp) as (sw' & Ha' & Hopen).
  repeat split.
  - by rewrite Hh, length_insert.
  - rewrite Hw. intros q Hq. apply lookup_delete_Some in Hq as [Hne Hq].
    apply Hne. symmetry. by eapply wf_injective.
  - rewrite Ha'. simpl. by f_equal.
  - by rewrite Hh, list_lookup_insert_eq.
Qed.

(** X7. Over any sequence of calls from a well-formed service, [Close] is
    called at most once on any worker, and only on a worker that was open.
    A worker that has been closed is no longer in the registry when the run
    ends, and it is still closed then. *)
Theorem no_worker_closed_twice cs w :
  registry_wf w →
  ∃ w' log,
    run cs w = Ok tt w' log
    ∧ NoDup (closes log)
    ∧ ∀ a, a ∈ closes log →
        closed <$> (heap w !! a) ≠ Some true
        ∧ unreachable a w' ∧ closed <$> (heap w' !! a) = Some true.
Proof.
  revert w. induction cs as [|c cs IH]; intros w Hwf.
  - exists w, []. split; [done|]. split; [apply NoDup_nil_2|].
    intros a Ha. by apply elem_of_nil in Ha.
  - destruct (dispatch_total c w Hwf) as (w1 & l1 & H1).
    assert (Hwf1 : registry_wf w1) by (by eapply dispatch_preserves_wf).
    destruct (IH w1 Hwf1) as (w2 & l2 & H2 & Hnd & Hcl).
    exists w2, (l1 ++ l2). split; [simpl; by eapply bind_Ok|].
    rewrite closes_app.
    assert (Hkeep : ∀ a, (a < length (heap w))%nat → a ∈ closes l2 →
                      closed <$> (heap w !! a) ≠ Some true).
    { intros a Hlt Ha Hwas. destruct (Hcl a Ha) as (Hnot & _). apply Hnot.
      destruct (dispatch_footprint _ _ _ _ H1) as [Hfp _].
      destruct (heap w !! a) as [sw|] eqn:Hsw; [|done]. simpl in Hwas.
      destruct Hfp as [_ Hh _ _ | ? ? ? ? _ _ Hh _ _
                      | ? ? ? b swb _ Hp Hb _ Hh _ _
                      | ? ? ? ? b swb _ Hp Hb _ Hh _ _]; rewrite Hh.
      - by rewrite Hsw.
      - rewrite lookup_app_l by done. by rewrite Hsw.
      - destruct (decide (b = a)) as [->|Hne].
        + by rewrite list_lookup_insert_eq.
        + rewrite list_lookup_insert_ne by done. by rewrite Hsw.
      - destruct (decide (b = a)) as [->|Hne].
        + rewrite list_lookup_insert_eq by done. simpl.
          rewrite Hsw in Hb. injection Hb as <-. done.
        + rewrite list_lookup_insert_ne by done. by rewrite Hsw. }
    assert (Hnew : ∀ a, ¬ (a < length (heap w))%nat →
                     closed <$> (heap w !! a) ≠ Some true).
    { intros a Hge. rewrite lookup_ge_None_2 by lia. done. }
    destruct (dispatch_closes _ _ _ _ Hwf H1)
      as [-> | (a & -> & Hun & Hopen & Hclosed)]; simpl.
    + split; [done|]. intros a Ha. destruct (Hcl a Ha) as (_ & ? & ?).
      split; [|done].
      destruct (decide (a < length (heap w))%nat); [by apply Hkeep | by apply Hnew].
    + destruct (run_unreachable _ _ _ _ _ Hun H2) as (Hun2 & Hh2 & Hc2 & _).
      split; [by apply NoDup_cons|].
      intros b [->|Hb]%elem_of_cons.
      * split; [by rewrite Hopen|]. split; [done|]. by rewrite Hh2.
      * destruct (Hcl b Hb) as (_ & ? & ?). split; [|done].
        destruct (decide (b < length (heap w))%nat); [by apply Hkeep | by apply Hnew].
Qed.

Lemma no_worker_closed_twice_witness :
  let cs := [CallParticipantLeft 0%nat sample_room sample_participant;
             CallParticipantJoined 0%nat sample_room sample_participant None;
             CallParticipantLeft 0%nat sample_room sample_participant;
             CallParticipantLeft 0%nat sample_room sample_participant] in
  ∃ w' log,
    run cs sample_world_joined = Ok tt w' log
    ∧ NoDup (closes log)
    ∧ ∀ a, a ∈ closes log →
        closed <$> (heap sample_world_joined !! a) ≠ Some true
        ∧ unreachable a w' ∧ closed <$> (heap w' !! a) = Some true.
Proof.
  apply no_worker_closed_twice. apply (bool_decide_unpack _). vm_compute. exact I.
Defined.

(** ** Delivering what was submitted *)

Lemma run_notifier cs w w' log : run cs w = Ok tt w' log → notifier w' = notifier w.
Proof.
  revert w log. induction cs as [|c cs IH]; intros w log Hrun.
  - by injection Hrun as <- _.
  - apply run_cons_inv in Hrun as (w1 & l1 & l2 & H1 & H2 & ->).
    destruct (dispatch_footprint _ _ _ _ H1) as (_ & Hn & _).
    rewrite (IH _ _ H2). done.
Qed.

Lemma run_quiet cs w w' log :
  run cs w = Ok tt w' log → notifier w = None → submissions log = [].
Proof.
  revert w log. induction cs as [|c cs IH]; intros w log Hrun Hn.
  - by injection Hrun as _ <-.
  - apply run_cons_inv in Hrun as (w1 & l1 & l2 & H1 & H2 & ->).
    destruct (dispatch_submissions _ _ _ _ H1) as (_ & Hn1 & Hnames & _).
    rewrite Hn in Hnames. apply fmap_nil_inv in Hnames.
    rewrite submissions_app, Hnames, (IH _ _ H2); [done | congruence].
Qed.

(** X8. Every task that a run of calls has submitted to the delivery pool
    can be executed afterwards: the service still has the notifier it had,
    so the task finds one.  Executed in any world with that notifier, the
    task calls [Notify] once, with the context and the event it closed over,
    logs one warning that names the event's type exactly when [Notify]
    answers an error, and changes nothing in the service: no retry, no
    metrics call, no analytics event. *)
Theorem submitted_tasks_deliverable cs w :
  registry_wf w →
  ∃ w' log,
    run cs w = Ok tt w' log
    ∧ notifier w' = notifier w
    ∧ ∀ task, task ∈ submissions log →
        ∃ n, notifier w' = Some n
          ∧ ∀ w2, notifier w2 = Some n →
              run_task task w2
              = Ok tt w2 (delivery_effects task
                            (Notify n (task_ctx task) (task_event task))).
Proof.
  intros Hwf. destruct (run_total cs w Hwf) as (w' & log & Hrun & _).
  exists w', log. split; [done|].
  pose proof (run_notifier _ _ _ _ Hrun) as Hn. split; [done|].
  intros task Htask. destruct (notifier w) as [n|] eqn:Hw.
  - exists n. split; [done|]. intros w2 Hw2.
    unfold run_task, delivery_effects. unfold_M. simpl. rewrite Hw2. simpl.
    destruct (Notify n (task_ctx task) (task_event task)); reflexivity.
  - rewrite (run_quiet _ _ _ _ Hrun Hw) in Htask. by apply elem_of_nil in Htask.
Qed.

Lemma submitted_tasks_deliverable_witness :
  let cs := [CallRoomStarted 0%nat sample_room;
             CallParticipantJoined 1%nat sample_room sample_participant None] in
  ∃ w' log,
    run cs sample_world = Ok tt w' log
    ∧ notifier w' = notifier sample_world
    ∧ ∀ task, task ∈ submissions log →
        ∃ n, notifier w' = Some n
          ∧ ∀ w2, notifier w2 = Some n →
              run_task task w2
              = Ok tt w2 (delivery_effects task
                            (Notify n (task_ctx task) (task_event task))).
Proof.
  apply submitted_tasks_deliverable. apply (bool_decide_unpack _). vm_compute. exact I.
Defined.

(** ** The analytics stream *)

Lemma sends_app l1 l2 : sends (l1 ++ l2) = sends l1 ++ sends l2.
Proof. unfold sends. apply omap_app. Qed.

Lemma dispatch_sends c w w' log :
  registry_wf w → dispatch c w = Ok tt w' log →
  prod_map id ae_Type <$> sends log = [(call_ctx c, analytics_type c)].
Proof.
  intros Hwf. run_call c w Hwf; destruct (notifier w); simpl;
    intros [= <- <-]; reflexivity.
Qed.

(** X9. Every call hands exactly one event to the analytics client, with
    the context the call was given and the type tag of its entry point,
    whatever the registry holds and whether or not a notifier is configured.
    So over a sequence of calls the analytics client sees one event per
    call, in the order of the calls. *)
Theorem one_analytics_event_per_call cs w :
  registry_wf w →
  ∃ w' log,
    run cs w = Ok tt w' log
    ∧ prod_map id ae_Type <$> sends log
      = (λ c, (call_ctx c, analytics_type c)) <$> cs.
Proof.
  revert w. induction cs as [|c cs IH]; intros w Hwf.
  - by exists w, [].
  - destruct (dispatch_total c w Hwf) as (w1 & l1 & H1).
    destruct (IH w1) as (w2 & l2 & H2 & Hs); [by eapply dispatch_preserves_wf|].
    exists w2, (l1 ++ l2). split; [simpl; by eapply bind_Ok|].
    by rewrite sends_app, fmap_app, (dispatch_sends _ _ _ _ Hwf H1), Hs.
Qed.

Lemma one_analytics_event_per_call_witness :
  let cs := [CallTrackSubscribed 3%nat "P9" sample_track;
             CallParticipantLeft 4%nat sample_room sample_participant;
             CallRecordingEnded 5%nat sample_recording] in
  ∃ w' log,
    run cs sample_world_quiet = Ok tt w' log
    ∧ prod_map id ae_Type <$> sends log
      = (λ c, (call_ctx c, analytics_type c)) <$> cs.
Proof.
  apply one_analytics_event_per_call. apply (bool_decide_unpack _). vm_compute. exact I.
Defined.

(** ** Calls that only read *)

(** X10. Only [ParticipantJoined], [ParticipantLeft] and [TrackUnpublished]
    write to the registry or to a worker.  Over any sequence of the other
    seven entry points the workers map and every worker stay as they were,
    no worker is created or closed and no handle is released. *)
Theorem other_calls_only_read cs w :
  registry_wf w →
  Forall (λ c, writes_workers c = false) cs →
  ∃ w' log,
    run cs w = Ok tt w' log
    ∧ workers w' = workers w ∧ heap w' = heap w
    ∧ closes log = [] ∧ releases log = [].
Proof.
  intros Hwf Hcs. revert w Hwf. induction Hcs as [|c cs Hc _ IH]; intros w Hwf.
  - by exists w, [].
  - destruct (dispatch_total c w Hwf) as (w1 & l1 & H1).
    destruct (IH w1) as (w2 & l2 & H2 & Hw & Hh & Hcl & Hrl);
      [by eapply dispatch_preserves_wf|].
    exists w2, (l1 ++ l2). split; [simpl; by eapply bind_Ok|].
    destruct (dispatch_footprint _ _ _ _ H1) as [Hfp _].
    destruct Hfp as [Hw1 Hh1 Hc1 Hr1 | ? ? ? ? -> | ? ? ? ? ? -> | ? ? ? ? ? ? ->];
      try discriminate Hc.
    rewrite closes_app, releases_app, Hc1, Hr1, Hcl, Hrl, Hw, Hh. done.
Qed.

Lemma other_calls_only_read_witness :
  let cs := [CallTrackPublished 0%nat "P1" sample_track;
             CallTrackSubscribed 0%nat "P1" sample_track;
             CallTrackUnsubscribed 0%nat "P1" sample_track;
             CallRoomEnded 0%nat sample_room] in
  ∃ w' log,
    run cs sample_world_joined = Ok tt w' log
    ∧ workers w' = workers sample_world_joined ∧ heap w' = heap sample_world_joined
    ∧ closes log = [] ∧ releases log = [].
Proof.
  apply other_calls_only_read.
  - apply (bool_decide_unpack _). vm_compute. exact I.
  - repeat constructor.
Defined.
